(** * CW-Vue-FrontEnd: cart / inventory engine of the lessons shop

    A shallow embedding of the two Vue applications of the repository,
    [src/app.js] (module [App]) and [src/unnamed/part_000] (module
    [Part0]).  Both share the same [data] record, the same comparator
    inside [sortedLessons], the same [addToCart], [fetchLessons] and
    [handleSearch]; they differ in [sortedLessons] (in place / on a
    copy), in [submitOrder] and in the tail of [removeFromCart].

    Lessons are JavaScript objects: the catalog array [lessons] and the
    array [cart] hold references to them, and [addToCart] mutates the
    object it receives.  Object identity is therefore modelled with a
    store [heap : loc -> lesson]; arrays are lists of locations. *)

From stdpp Require Import base list strings numbers functions sorting.
From Stdlib Require Import ZArith Ascii.
From Stdlib Require String OrderedTypeEx.

Local Open Scope string_scope.
Local Open Scope list_scope.
Local Open Scope Z_scope.

(** ** Data model *)

(** A lesson as the server sends it.  [price] and [space] are JavaScript
    numbers; the catalog holds integers there. *)
Record lesson := Lesson {
  _id : string;
  topic : string;
  subject : string;
  location : string;
  price : Z;
  space : Z;
  image : string
}.

Definition set_space (o : lesson) (n : Z) : lesson :=
  {| _id := _id o; topic := topic o; subject := subject o;
     location := location o; price := price o; space := n;
     image := image o |}.

(** References to lesson objects. *)
Definition loc := nat.

(** The values [a[this.sortBy]] can produce on a lesson. *)
Inductive jsval :=
  | JUndefined
  | JNumber (n : Z)
  | JString (s : string).

#[global] Instance jsval_eq_dec : EqDecision jsval.
Proof. solve_decision. Defined.

(** [a[k]]: property access by name; an unknown name gives [undefined]. *)
Definition get_prop (a : lesson) (k : string) : jsval :=
  if String.eqb k "_id" then JString (_id a)
  else if String.eqb k "topic" then JString (topic a)
  else if String.eqb k "subject" then JString (subject a)
  else if String.eqb k "location" then JString (location a)
  else if String.eqb k "price" then JNumber (price a)
  else if String.eqb k "space" then JNumber (space a)
  else if String.eqb k "image" then JString (image a)
  else JUndefined.

(** [String.prototype.toLowerCase] on the ASCII range. *)
Definition lower_ascii (c : ascii) : ascii :=
  let n := nat_of_ascii c in
  if (65 <=? n)%nat && (n <=? 90)%nat then ascii_of_nat (n + 32) else c.

Fixpoint toLowerCase (s : string) : string :=
  match s with
  | EmptyString => EmptyString
  | String c s' => String (lower_ascii c) (toLowerCase s')
  end.

(** [(typeof v === 'string') ? v.toLowerCase() : v] *)
Definition fold_case (v : jsval) : jsval :=
  match v with
  | JString s => JString (toLowerCase s)
  | _ => v
  end.

(** The relational comparison [x < y].  Two strings compare by code
    units, two numbers numerically, and [undefined] converts to NaN, for
    which every comparison is false.  A string against a number would go
    through ToNumber; both operands of the comparator are the same
    property of two lessons, so that case does not arise
    ([get_prop_same_kind]) and is given the NaN answer. *)
Definition js_lt (x y : jsval) : bool :=
  match x, y with
  | JNumber a, JNumber b => a <? b
  | JString s, JString t => String.ltb s t
  | _, _ => false
  end.

(** [x > y] is the same comparison with the operands exchanged. *)
Definition js_gt (x y : jsval) : bool := js_lt y x.

(** The arrow function given to [sort] in [sortedLessons] (the same in
    both files). *)
Definition compareFn (sortBy sortOrder : string) (a b : lesson) : Z :=
  let valA := fold_case (get_prop a sortBy) in
  let valB := fold_case (get_prop b sortBy) in
  let comparison :=
    if js_gt valA valB then 1
    else if js_lt valA valB then -1
    else 0 in
  if String.eqb sortOrder "asc" then comparison else comparison * -1.

(** [Array.prototype.sort] with a comparator.  The language requires a
    stable sort: [a] goes before [b] when the comparator is negative,
    after when it is positive, and elements that compare equal keep
    their order.  Stable insertion computes that order. *)
Fixpoint sort_insert {A} (cmp : A -> A -> Z) (x : A) (l : list A) : list A :=
  match l with
  | [] => [x]
  | y :: l' => if cmp x y <=? 0 then x :: l else y :: sort_insert cmp x l'
  end.

Fixpoint array_sort {A} (cmp : A -> A -> Z) (l : list A) : list A :=
  match l with
  | [] => []
  | x :: l' => sort_insert cmp x (array_sort cmp l')
  end.

(** [checkout] and [orderMessage] objects. *)
Record checkout_form := Checkout { name : string; phone : string }.

Record message := Message { type : string; text : string }.

(** The [data] of the Vue instance, with the object store it lives in.
    [next] is the first location not yet given to an object. *)
Record state := State {
  heap : loc -> lesson;
  next : loc;
  lessons : list loc;
  cart : list loc;
  showCart : bool;
  sortBy : string;
  sortOrder : string;
  searchQuery : string;
  checkout : checkout_form;
  orderMessage : option message
}.

Definition set_heap (st : state) (h : loc -> lesson) : state :=
  State h (next st) (lessons st) (cart st) (showCart st) (sortBy st)
        (sortOrder st) (searchQuery st) (checkout st) (orderMessage st).

Definition set_lessons (st : state) (ls : list loc) : state :=
  State (heap st) (next st) ls (cart st) (showCart st) (sortBy st)
        (sortOrder st) (searchQuery st) (checkout st) (orderMessage st).

Definition set_cart (st : state) (c : list loc) : state :=
  State (heap st) (next st) (lessons st) c (showCart st) (sortBy st)
        (sortOrder st) (searchQuery st) (checkout st) (orderMessage st).

Definition set_showCart (st : state) (b : bool) : state :=
  State (heap st) (next st) (lessons st) (cart st) b (sortBy st)
        (sortOrder st) (searchQuery st) (checkout st) (orderMessage st).

Definition set_checkout (st : state) (c : checkout_form) : state :=
  State (heap st) (next st) (lessons st) (cart st) (showCart st) (sortBy st)
        (sortOrder st) (searchQuery st) c (orderMessage st).

Definition set_orderMessage (st : state) (m : option message) : state :=
  State (heap st) (next st) (lessons st) (cart st) (showCart st) (sortBy st)
        (sortOrder st) (searchQuery st) (checkout st) m.

(** [data] as declared, for a given default sort attribute. *)
Definition initial (defaultSort : string) (h : loc -> lesson) : state :=
  State h 0%nat [] [] false defaultSort "asc" "" (Checkout "" "") None.

(** The comparator on references. *)
Definition compareLessons (st : state) (a b : loc) : Z :=
  compareFn (sortBy st) (sortOrder st) (heap st a) (heap st b).

(** ** Network and other effects *)

(** One line of the body of [POST /orders], and the body. *)
Record order_line := OrderLine {
  line_id : string;
  line_topic : string;
  line_price : Z;
  quantity : Z
}.

Record order := Order {
  order_name : string;
  order_phone : string;
  order_lessons : list order_line
}.

Inductive request :=
  | GET_lessons
  | GET_search (q : string)
  | POST_orders (body : order)
  | PUT_lessons (id : string) (new_space : Z).

(** What [fetch] resolves with: [response.ok] and [response.json()]. *)
Record response := Response { ok : bool; json : list lesson }.

(** A promise as the awaiting code sees it: never settled, rejected, or
    fulfilled with a value.  [fetch] rejects on a network error only; an
    error status is a fulfilled promise whose response has [ok = false]. *)
Inductive promise (A : Type) :=
  | Pending
  | Rejected
  | Fulfilled (v : A).
Arguments Pending {A}.
Arguments Rejected {A}.
Arguments Fulfilled {A} v.

(** The server and the network, as seen from the client. *)
Definition network := request -> promise response.

Inductive effect :=
  | Fetch (r : request)
  | ConsoleError (msg : string)
  | SetTimeout (ms : Z).

Definition is_rejected {A} (p : promise A) : bool :=
  match p with Rejected => true | _ => false end.

Definition is_pending {A} (p : promise A) : bool :=
  match p with Pending => true | _ => false end.

Definition fulfilled_value {A} (p : promise A) : option A :=
  match p with Fulfilled v => Some v | _ => None end.

(** [Promise.all]: rejected as soon as one input is rejected, fulfilled
    with all the values once every input is fulfilled, pending
    otherwise. *)
Definition promise_all {A} (ps : list (promise A)) : promise (list A) :=
  if existsb is_rejected ps then Rejected
  else if existsb is_pending ps then Pending
  else Fulfilled (omap fulfilled_value ps).

(** The requests an array of optional requests really sends. *)
Definition sent (rs : list (option request)) : list effect :=
  fmap Fetch (omap id rs).

(** The promise standing for each entry: the fetch, or an already
    fulfilled promise (of [undefined]) where no request is made. *)
Definition promise_of (net : network) (r : option request)
  : promise (option response) :=
  match r with
  | Some q =>
      match net q with
      | Pending => Pending
      | Rejected => Rejected
      | Fulfilled v => Fulfilled (Some v)
      end
  | None => Fulfilled None
  end.

(** The update requests found in a trace, as (id, space) pairs. *)
Definition puts_in (tr : list effect) : list (string * Z) :=
  omap (fun e => match e with
                 | Fetch (PUT_lessons i s) => Some (i, s)
                 | _ => None
                 end) tr.

(** ** Operations shared by the two files *)

(** [response.json()] creates fresh objects. *)
Fixpoint alloc (h : loc -> lesson) (n : loc) (js : list lesson)
  : (loc -> lesson) * loc * list loc :=
  match js with
  | [] => (h, n, [])
  | o :: js' =>
      let '(h', n', ls) := alloc (<[n := o]> h) (S n) js' in
      (h', n', n :: ls)
  end.

(** [this.lessons = await response.json()] *)
Definition replace_lessons (st : state) (js : list lesson) : state :=
  let '(h, n, ls) := alloc (heap st) (next st) js in
  State h n ls (cart st) (showCart st) (sortBy st) (sortOrder st)
        (searchQuery st) (checkout st) (orderMessage st).

(** The body shared by [fetchLessons] and the search branch of
    [handleSearch]: fetch, throw on an error status, store the list;
    the [catch] only logs. *)
Definition load (st : state) (net : network) (r : request) (log : string)
  : state * list effect :=
  match net r with
  | Pending => (st, [Fetch r])
  | Rejected => (st, [Fetch r; ConsoleError log])
  | Fulfilled resp =>
      if ok resp then (replace_lessons st (json resp), [Fetch r])
      else (st, [Fetch r; ConsoleError log])
  end.

Definition fetchLessons (st : state) (net : network) : state * list effect :=
  load st net GET_lessons "Error fetching lessons:".

Definition handleSearch (st : state) (net : network) : state * list effect :=
  let st := set_orderMessage st None in
  if (0 <? String.length (searchQuery st))%nat
  then load st net (GET_search (searchQuery st)) "Error during search:"
  else fetchLessons st net.

(** [addToCart(lesson)]: the entry pushed is the object received. *)
Definition addToCart (st : state) (lesson : loc) : state :=
  if 0 <? space (heap st lesson) then
    let st := set_cart st (cart st ++ [lesson]) in
    set_heap st
      (<[lesson := set_space (heap st lesson) (space (heap st lesson) - 1)]>
         (heap st))
  else st.

(** [array.splice(index, 1)]: a negative index counts from the end, and
    an index past the end deletes nothing. *)
Definition splice1 {A} (l : list A) (index : Z) : list A :=
  let len := Z.of_nat (length l) in
  let start := if index <? 0 then Z.max (len + index) 0 else Z.min index len in
  delete (Z.to_nat start) l.

(** [array.findIndex(p)]: the first index whose element passes, else -1. *)
Fixpoint findIndex {A} (p : A -> bool) (l : list A) : Z :=
  match l with
  | [] => -1
  | x :: l' =>
      if p x then 0
      else let i := findIndex p l' in if i =? -1 then -1 else i + 1
  end.

(** [l._id === item._id] *)
Definition same_id (st : state) (item l : loc) : bool :=
  String.eqb (_id (heap st l)) (_id (heap st item)).

(** [x.space += 1], [x.space++] *)
Definition give_back (st : state) (l : loc) : state :=
  set_heap st (<[l := set_space (heap st l) (space (heap st l) + 1)]> (heap st)).

(** [this.cart.filter(c => c._id === id).length] *)
Definition count_id (st : state) (id : string) : Z :=
  Z.of_nat (length (filter (fun c => _id (heap st c) = id) (cart st))).

Definition submitting : message :=
  Message "alert-warning" "Submitting order...".

(** A [Set] keeps its elements in insertion order; adding an element
    already present changes nothing. *)
Definition set_add (s : list string) (x : string) : list string :=
  if decide (x ∈ s) then s else s ++ [x].

(** [[...new Set(l)]] *)
Definition new_Set (l : list string) : list string := foldl set_add [] l.

(** ** src/app.js *)
Module App.

(** [sortedLessons]: [filtered] is the array [this.lessons] itself, and
    [sort] orders an array in place; the computed value and the new
    catalog are both returned. *)
Definition sortedLessons (st : state) : list loc * state :=
  let filtered := lessons st in
  let sorted := array_sort (compareLessons st) filtered in
  (sorted, set_lessons st sorted).

Definition orderPayload (st : state) : order :=
  Order (name (checkout st)) (phone (checkout st))
    (fmap (fun item =>
            OrderLine (_id (heap st item)) (topic (heap st item))
                      (price (heap st item))
                      (count_id st (_id (heap st item))))
         (cart st)).

(** One entry per catalog lesson: a PUT for a lesson that was bought,
    [Promise.resolve()] otherwise. *)
Definition updateRequests (st : state) : list (option request) :=
  fmap (fun lesson =>
         let boughtCount := count_id st (_id (heap st lesson)) in
         if 0 <? boughtCount then
           let newSpace := space (heap st lesson) - boughtCount in
           Some (PUT_lessons (_id (heap st lesson)) newSpace)
         else None)
      (lessons st).

Definition success : message :=
  Message "alert-success"
          "✅ Order submitted successfully and spaces updated!".

Definition failure : message :=
  Message "alert-danger" "❌ An error occurred during checkout.".

(** The [catch] block. *)
Definition failed (st : state) (tr : list effect) : state * list effect :=
  (set_orderMessage st (Some failure),
   tr ++ [ConsoleError "Error submitting order:"]).

(** Step 3.  [this.fetchLessons()] is started and not awaited: its
    request leaves at once and its continuation runs after the two
    assignments that follow it. *)
Definition finalize (st : state) (net : network) : state * list effect :=
  let st := set_cart st [] in
  let st := set_checkout st (Checkout "" "") in
  let st := set_showCart st false in
  let st := set_orderMessage st (Some success) in
  fetchLessons st net.

(** [submitOrder], run against a network that decides how each request
    ends.  The result is the state once the function has returned or
    stalled on a promise that never settles, with everything it did.  No
    other handler runs while it waits. *)
Definition submitOrder (st : state) (net : network) : state * list effect :=
  let orderPayload := orderPayload st in
  let st := set_orderMessage st (Some submitting) in
  let post := POST_orders orderPayload in
  match net post with
  | Pending => (st, [Fetch post])
  | Rejected => failed st [Fetch post]
  | Fulfilled postResponse =>
      if negb (ok postResponse) then failed st [Fetch post]
      else
        let updates := updateRequests st in
        let tr := Fetch post :: sent updates in
        match promise_all (fmap (promise_of net) updates) with
        | Pending => (st, tr)
        | Rejected => failed st tr
        | Fulfilled _ =>
            let '(st', tr') := finalize st net in (st', tr ++ tr')
        end
  end.

(** [removeFromCart(item, index)].  An index other than -1 returned by
    [findIndex] is in range ([findIndex_find]), so [this.lessons[lessonIndex]]
    is a lesson. *)
Definition removeFromCart (st : state) (item : loc) (index : Z) : state :=
  let lessonIndex := findIndex (same_id st item) (lessons st) in
  let st :=
    if negb (lessonIndex =? -1) then
      match lessons st !! Z.to_nat lessonIndex with
      | Some l => give_back st l
      | None => st
      end
    else st in
  let st := set_cart st (splice1 (cart st) index) in
  if (length (cart st) =? 0)%nat then set_orderMessage st None else st.

End App.

(** ** src/unnamed/part_000 *)
Module Part0.

(** [sortedLessons]: [[...this.lessons]] is a new array; the catalog is
    left as it is. *)
Definition sortedLessons (st : state) : list loc * state :=
  let sorted := lessons st in
  (array_sort (compareLessons st) sorted, st).

Definition orderPayload (st : state) : order :=
  Order (name (checkout st)) (phone (checkout st))
    (fmap (fun item =>
            OrderLine (_id (heap st item)) (topic (heap st item))
                      (price (heap st item)) 1)
         (cart st)).

Definition uniqueLessonIds (st : state) : list string :=
  new_Set (fmap (fun item => _id (heap st item)) (cart st)).

(** One entry per distinct id of the cart: a PUT when the catalog has a
    lesson of that id, [undefined] otherwise. *)
Definition updateRequests (st : state) : list (option request) :=
  fmap (fun id =>
         let lesson :=
           List.find (fun l => String.eqb (_id (heap st l)) id) (lessons st) in
         match lesson with
         | Some lesson => Some (PUT_lessons id (space (heap st lesson)))
         | None => None
         end)
      (uniqueLessonIds st).

Definition success : message :=
  Message "alert-success" "✅ Order submitted successfully!".

Definition failure : message :=
  Message "alert-danger" "❌ An error occurred. Please try again.".

Definition failed (st : state) (tr : list effect) : state * list effect :=
  (set_orderMessage st (Some failure),
   tr ++ [ConsoleError "Error submitting order:"]).

(** Step 3; the timer is left running. *)
Definition finalize (st : state) : state * list effect :=
  let st := set_cart st [] in
  let st := set_checkout st (Checkout "" "") in
  let st := set_showCart st false in
  let st := set_orderMessage st (Some success) in
  (st, [SetTimeout 3000]).

(** The callback of that timer. *)
Definition timeout (st : state) : state := set_orderMessage st None.

Definition submitOrder (st : state) (net : network) : state * list effect :=
  let orderPayload := orderPayload st in
  let st := set_orderMessage st (Some submitting) in
  let post := POST_orders orderPayload in
  match net post with
  | Pending => (st, [Fetch post])
  | Rejected => failed st [Fetch post]
  | Fulfilled postResponse =>
      if negb (ok postResponse) then failed st [Fetch post]
      else
        let updates := updateRequests st in
        let tr := Fetch post :: sent updates in
        match promise_all (fmap (promise_of net) updates) with
        | Pending => (st, tr)
        | Rejected => failed st tr
        | Fulfilled _ =>
            let '(st', tr') := finalize st in (st', tr ++ tr')
        end
  end.

Definition removeFromCart (st : state) (item : loc) (index : Z) : state :=
  let lessonInStore := List.find (same_id st item) (lessons st) in
  let st :=
    match lessonInStore with
    | Some l => give_back st l
    | None => st
    end in
  let st := set_cart st (splice1 (cart st) index) in
  if (length (cart st) =? 0)%nat then set_showCart st false else st.

End Part0.

(** ** The two files side by side *)

Inductive variant := app_js | part_000.

Definition removeFromCart (v : variant) : state -> loc -> Z -> state :=
  match v with
  | app_js => App.removeFromCart
  | part_000 => Part0.removeFromCart
  end.

Definition submitOrder (v : variant) : state -> network -> state * list effect :=
  match v with
  | app_js => App.submitOrder
  | part_000 => Part0.submitOrder
  end.

Definition orderPayload (v : variant) : state -> order :=
  match v with
  | app_js => App.orderPayload
  | part_000 => Part0.orderPayload
  end.

Definition updateRequests (v : variant) : state -> list (option request) :=
  match v with
  | app_js => App.updateRequests
  | part_000 => Part0.updateRequests
  end.

Definition success (v : variant) : message :=
  match v with
  | app_js => App.success
  | part_000 => Part0.success
  end.

Definition failure (v : variant) : message :=
  match v with
  | app_js => App.failure
  | part_000 => Part0.failure
  end.

(** ** Sequences of cart calls *)

Inductive call :=
  | Add (lesson : loc)
  | Remove (item : loc) (index : Z).

Definition step (v : variant) (st : state) (c : call) : state :=
  match c with
  | Add lesson => addToCart st lesson
  | Remove item index => removeFromCart v st item index
  end.

(** The states after each call of a sequence, in order. *)
Fixpoint run (v : variant) (st : state) (cs : list call) : list state :=
  match cs with
  | [] => []
  | c :: cs' => step v st c :: run v (step v st c) cs'
  end.

(** A call whose arguments agree with the state it is made in: the
    lesson added is one of the catalog, and the entry removed is the one
    at the position given. *)
Definition agrees (st : state) (c : call) : Prop :=
  match c with
  | Add lesson => lesson ∈ lessons st
  | Remove item index =>
      0 <= index /\ cart st !! Z.to_nat index = Some item
  end.

Fixpoint all_agree (v : variant) (st : state) (cs : list call) : Prop :=
  match cs with
  | [] => True
  | c :: cs' => agrees st c /\ all_agree v (step v st c) cs'
  end.

(** What [this.cart[i]] shows. *)
Definition entry (st : state) (i : nat) : option lesson :=
  heap st <$> cart st !! i.

(** The ids of the catalog and of the cart. *)
Definition catalog_ids (st : state) : list string :=
  fmap (fun l => _id (heap st l)) (lessons st).

Definition cart_ids (st : state) : list string :=
  fmap (fun c => _id (heap st c)) (cart st).

(** The update requests of a trace that are for a given id. *)
Definition puts_for (id : string) (tr : list effect) : list (string * Z) :=
  filter (fun p => p.1 = id) (puts_in tr).

(** The lines of an order that are for a given id. *)
Definition lines_for (id : string) (o : order) : list order_line :=
  filter (fun ln => line_id ln = id) (order_lessons o).

(** The sort of [sortedLessons] as a function of the list. *)
Definition sort_by (h : loc -> lesson) (field dir : string) (l : list loc)
  : list loc :=
  array_sort (fun a b => compareFn field dir (h a) (h b)) l.

(** The folded value a lesson is ordered by. *)
Definition sort_key (h : loc -> lesson) (field : string) (a : loc) : jsval :=
  fold_case (get_prop (h a) field).

(** [v-model="searchQuery"] *)
Definition set_searchQuery (st : state) (q : string) : state :=
  State (heap st) (next st) (lessons st) (cart st) (showCart st) (sortBy st)
        (sortOrder st) q (checkout st) (orderMessage st).

(** ** A shop with three lessons *)
Module Shop.

Definition blank : lesson := Lesson "" "" "" "" 0 0 "".

Definition maths : lesson := Lesson "1" "Algebra" "Maths" "London" 100 5 "maths.png".
Definition english : lesson := Lesson "2" "Poetry" "English" "Leeds" 80 3 "english.png".
Definition physics : lesson := Lesson "3" "Optics" "Physics" "York" 90 0 "physics.png".

(** A server that answers every GET and the POST, and gives every PUT
    the same fate. *)
Definition server (found : list lesson) (puts : promise response) : network :=
  fun r =>
    match r with
    | GET_lessons => Fulfilled (Response true [maths; english; physics])
    | GET_search _ => Fulfilled (Response true found)
    | POST_orders _ => Fulfilled (Response true [])
    | PUT_lessons _ _ => puts
    end.

(** A server that refuses the order. *)
Definition refusing : network :=
  fun r =>
    match r with
    | POST_orders _ => Fulfilled (Response false [])
    | _ => Fulfilled (Response true [])
    end.

Definition fine : promise response := Fulfilled (Response true []).
Definition error_status : promise response := Fulfilled (Response false []).

(** After [mounted]: the lessons are at 0, 1 and 2. *)
Definition loaded : state :=
  (fetchLessons (initial "subject" (fun _ => blank)) (server [] fine)).1.

(** Lesson 1 added twice. *)
Definition two_in_cart : state := addToCart (addToCart loaded 0%nat) 0%nat.

(** Lessons 1, 2, 1 added. *)
Definition aba_in_cart : state :=
  addToCart (addToCart (addToCart loaded 0%nat) 1%nat) 0%nat.

(** Lesson 1 added once, then a search whose result is [found]. *)
Definition searched (found : list lesson) : state :=
  (handleSearch (set_searchQuery (addToCart loaded 0%nat) "a")
                (server found fine)).1.

(** Two lessons of the same subject. *)
Definition algebra : lesson := Lesson "1" "Algebra" "Maths" "London" 100 5 "a.png".
Definition geometry : lesson := Lesson "4" "Geometry" "Maths" "Leeds" 100 5 "g.png".
Definition two_maths : loc -> lesson :=
  <[0%nat := algebra]> (<[1%nat := geometry]> (fun _ => blank)).

End Shop.

(** ** The statements of the specification that the code does not meet *)

(** Conservation against the space at the last sync, whatever the cart
    held then. *)
Definition conserved_since_sync (v : variant) (st0 : state) : Prop :=
  forall cs, all_agree v st0 cs ->
  forall st, st ∈ run v st0 cs ->
  forall l, l ∈ lessons st0 ->
    space (heap st l) + count_id st (_id (heap st l)) = space (heap st0 l).

(** One update per distinct id of the cart, carrying the space of the
    entry. *)
Definition one_put_per_cart_id (v : variant) (st : state) (net : network) : Prop :=
  forall c, c ∈ cart st ->
    puts_for (_id (heap st c)) (submitOrder v st net).2
    = [(_id (heap st c), space (heap st c))].

(** One line per distinct id of the cart, with the count as quantity. *)
Definition one_line_per_cart_id (v : variant) (st : state) : Prop :=
  forall c, c ∈ cart st ->
    exists ln, lines_for (_id (heap st c)) (orderPayload v st) = [ln]
               /\ quantity ln = count_id st (_id (heap st c)).

(** Every update settles (none stays pending) and the order is
    committed. *)
Definition settled {A} (p : promise A) : Prop := p <> Pending.

Definition committed (v : variant) (st : state) : Prop :=
  cart st = [] /\ checkout st = Checkout "" "" /\
  orderMessage st = Some (success v).

Definition commits_when_settled (v : variant) (st : state) (net : network) : Prop :=
  (exists resp, net (POST_orders (orderPayload v st)) = Fulfilled resp
                /\ ok resp = true) ->
  (forall id n, settled (net (PUT_lessons id n))) ->
  committed v (submitOrder v st net).1.

(** The order was accepted: the POST is answered with a success status. *)
Definition order_accepted (v : variant) (st : state) (net : network) : Prop :=
  exists resp, net (POST_orders (orderPayload v st)) = Fulfilled resp
               /\ ok resp = true.

(** The order failed: the POST is rejected by the network or answered
    with an error status. *)
Definition order_failed (v : variant) (st : state) (net : network) : Prop :=
  net (POST_orders (orderPayload v st)) = Rejected
  \/ exists resp, net (POST_orders (orderPayload v st)) = Fulfilled resp
                  /\ ok resp = false.

(** The update a request stands for, if it is one. *)
Definition put_of (r : option request) : option (string * Z) :=
  match r with
  | Some (PUT_lessons i s) => Some (i, s)
  | _ => None
  end.

(** Sorting descending what was sorted ascending reverses it. *)
Definition desc_reverses_asc (h : loc -> lesson) (field : string) (l : list loc) : Prop :=
  sort_by h field "desc" (sort_by h field "asc" l)
  = reverse (sort_by h field "asc" l).

(** ** Notions used to state the properties *)

(** Values of the same JavaScript type. *)
Definition same_kind (x y : jsval) : Prop :=
  match x, y with
  | JUndefined, JUndefined | JNumber _, JNumber _ | JString _, JString _ => True
  | _, _ => False
  end.

(** Under comparator [cmp], [a] may stand before [b]. *)
Definition before {A} (cmp : A -> A -> Z) (a b : A) : Prop := cmp a b <= 0.

(** The key of [a] is below the key of [b]. *)
Definition key_lt (h : loc -> lesson) (field : string) (a b : loc) : Prop :=
  js_lt (sort_key h field a) (sort_key h field b) = true.

(** The units of a lesson the client accounts for: those still free and
    those in the cart. *)
Definition held (st : state) (l : loc) : Z :=
  space (heap st l) + count_id st (_id (heap st l)).

(** The first part of [removeFromCart], written with [find]: the lesson
    of the catalog with the id of the entry gets one unit back. *)
Definition restore (st : state) (item : loc) : state :=
  match List.find (same_id st item) (lessons st) with
  | Some l => give_back st l
  | None => st
  end.

(** The entries of an id in an array of references. *)
Definition count_in (h : loc -> lesson) (c : list loc) (id : string) : Z :=
  Z.of_nat (length (filter (fun c => _id (h c) = id) c)).

(** The location of an object keeps its id. *)
Definition ids_kept (st st' : state) : Prop :=
  forall l, _id (heap st' l) = _id (heap st l).

(** ** The rest of the two files *)

(** [isCartEnabled] *)
Definition isCartEnabled (st : state) : bool := (0 <? length (cart st))%nat.

(** The character classes of the two validation patterns, on code units
    below 256: [[a-zA-Z]], [\s] (tab, line feed, vertical tab, form
    feed, carriage return, space, no-break space) and [\d]. *)
Definition is_letter (c : ascii) : bool :=
  let n := nat_of_ascii c in
  ((97 <=? n) && (n <=? 122))%nat || ((65 <=? n) && (n <=? 90))%nat.

Definition is_whitespace (c : ascii) : bool :=
  let n := nat_of_ascii c in
  ((9 <=? n) && (n <=? 13))%nat || (n =? 32)%nat || (n =? 160)%nat.

Definition is_digit (c : ascii) : bool :=
  let n := nat_of_ascii c in ((48 <=? n) && (n <=? 57))%nat.

(** [/^[...]+$/.test(s)] for a character class: from the start of the
    string, one character of the class, then as many as there are, and
    then the end of the string. *)
Fixpoint test_plus (cls : ascii -> bool) (s : string) : bool :=
  match s with
  | EmptyString => false
  | String c s' =>
      cls c && match s' with
               | EmptyString => true
               | String _ _ => test_plus cls s'
               end
  end.

(** [/^[a-zA-Z\s]+$/] and [/^\d+$/] *)
Definition name_pattern (s : string) : bool :=
  test_plus (fun c => is_letter c || is_whitespace c) s.

Definition phone_pattern (s : string) : bool := test_plus is_digit s.

Definition isNameValid (st : state) : bool := name_pattern (name (checkout st)).

Definition isPhoneValid (st : state) : bool := phone_pattern (phone (checkout st)).

Definition isCheckoutEnabled (st : state) : bool :=
  isNameValid st && isPhoneValid st && (0 <? length (cart st))%nat.

(** [mounted] *)
Definition mounted (st : state) (net : network) : state * list effect :=
  fetchLessons st net.

(** [sortedLessons] by file. *)
Definition sortedLessons (v : variant) : state -> list loc * state :=
  match v with
  | app_js => App.sortedLessons
  | part_000 => Part0.sortedLessons
  end.

(** The units of a lesson an order asks for: the quantities of its lines
    for the id of the lesson, added up. *)
Definition ordered_units (id : string) (o : order) : Z :=
  foldl (fun units ln => units + quantity ln) 0 (lines_for id o).

(** The order of a lesson with respect to another in a direction: in
    ascending order its key is not greater, in any other its key is not
    smaller. *)
Definition in_order (h : loc -> lesson) (field dir : string) (a b : loc) : Prop :=
  if String.eqb dir "asc"
  then js_lt (sort_key h field b) (sort_key h field a) = false
  else js_lt (sort_key h field a) (sort_key h field b) = false.

(** The names [get_prop] knows. *)
Definition known_fields : list string :=
  ["_id"; "topic"; "subject"; "location"; "price"; "space"; "image"].

(** ** What happens on the page *)

(** An object that exists: its location has been given out. *)
Definition allocated (st : state) (l : loc) : Prop := (l < next st)%nat.


(** No object has a negative space. *)
Definition spaces_nonneg (st : state) : Prop :=
  forall l, 0 <= space (heap st l).

(** The events of the page, each with the network it meets: loading the
    catalog, typing in the search box, adding a lesson, removing a cart
    entry, typing in the checkout form, choosing a sort, reading the
    sorted list, submitting the order, and the timer of part_000. *)
Inductive event :=
  | Load (net : network)
  | Search (q : string) (net : network)
  | AddLesson (lesson : loc)
  | RemoveEntry (item : loc) (index : Z)
  | Fill (form : checkout_form)
  | ReadSorted
  | Submit (net : network)
  | Timer.

Definition handle (v : variant) (st : state) (e : event) : state :=
  match e with
  | Load net => (fetchLessons st net).1
  | Search q net => (handleSearch (set_searchQuery st q) net).1
  | AddLesson lesson => addToCart st lesson
  | RemoveEntry item index => removeFromCart v st item index
  | Fill form => set_checkout st form
  | ReadSorted => (sortedLessons v st).2
  | Submit net => (submitOrder v st net).1
  | Timer => match v with
             | app_js => st
             | part_000 => Part0.timeout st
             end
  end.


(** A network whose lessons never have a negative space. *)
Definition serves_nonneg (net : network) : Prop :=
  forall r resp, net r = Fulfilled resp ->
    Forall (fun o => 0 <= space o) (json resp).

Definition event_nonneg (e : event) : Prop :=
  match e with
  | Load net | Search _ net | Submit net => serves_nonneg net
  | _ => True
  end.

(** The states a sequence of events leads through. *)
Fixpoint play (v : variant) (st : state) (es : list event) : state :=
  match es with
  | [] => st
  | e :: es' => play v (handle v st e) es'
  end.


(** The state the assignments of step 3 of [submitOrder] build. *)
Definition finalized (v : variant) (st : state) : state :=
  set_orderMessage
    (set_showCart (set_checkout (set_cart st []) (Checkout "" "")) false)
    (Some (success v)).

(** The request [handleSearch] makes: the search when the query is not
    empty, the whole catalog otherwise. *)
Definition search_request (st : state) : request :=
  if (0 <? String.length (searchQuery st))%nat
  then GET_search (searchQuery st)
  else GET_lessons.

(** A request answered with a success status. *)
Definition answered_ok (net : network) (r : request) : Prop :=
  exists resp, net r = Fulfilled resp /\ ok resp = true.

(** Every update of the order is answered, whatever the status. *)
Definition updates_answered (v : variant) (st : state) (net : network) : Prop :=
  Forall (fun p => exists x, p = Fulfilled x)
         (promise_of net <$> updateRequests v st).

(** * Properties *)

(** ** The order on sort keys *)

Lemma ltb_Lt (s t : string) : String.ltb s t = true <-> String.compare s t = Lt.
Proof. unfold String.ltb. destruct (String.compare s t); intuition congruence. Qed.

Lemma ltb_asym (s t : string) : String.ltb s t = true -> String.ltb t s = false.
Proof.
  rewrite ltb_Lt. intros H. unfold String.ltb.
  rewrite String.compare_antisym, H. reflexivity.
Qed.

Lemma ltb_trans (s t u : string) :
  String.ltb s t = true -> String.ltb t u = true -> String.ltb s u = true.
Proof.
  rewrite !ltb_Lt.
  change String.compare with OrderedTypeEx.String_as_OT.cmp.
  rewrite !OrderedTypeEx.String_as_OT.cmp_lt.
  apply OrderedTypeEx.String_as_OT.lt_trans.
Qed.

Lemma ltb_trichotomy (s t : string) :
  String.ltb s t = false -> String.ltb t s = false -> s = t.
Proof.
  unfold String.ltb. rewrite (String.compare_antisym t s).
  destruct (String.compare s t) eqn:E; simpl; try discriminate.
  intros _ _. now apply String.compare_eq_iff.
Qed.

Lemma js_lt_asym (x y : jsval) : js_lt x y = true -> js_lt y x = false.
Proof.
  destruct x, y; simpl; try reflexivity; try discriminate.
  - intros H. apply Z.ltb_lt in H. apply Z.ltb_ge. lia.
  - apply ltb_asym.
Qed.

Lemma js_lt_trans (x y z : jsval) :
  js_lt x y = true -> js_lt y z = true -> js_lt x z = true.
Proof.
  destruct x, y, z; simpl; try discriminate.
  - rewrite !Z.ltb_lt. lia.
  - apply ltb_trans.
Qed.

Lemma js_lt_trichotomy (x y : jsval) :
  same_kind x y -> js_lt x y = false -> js_lt y x = false -> x = y.
Proof.
  destruct x, y; simpl; try contradiction; intros _.
  - reflexivity.
  - rewrite !Z.ltb_ge. intros. f_equal. lia.
  - intros H1 H2. f_equal. now apply ltb_trichotomy.
Qed.

(** Two lessons give values of the same type for the same property. *)
Lemma get_prop_same_kind (a b : lesson) (k : string) :
  same_kind (get_prop a k) (get_prop b k).
Proof.
  unfold get_prop.
  repeat (match goal with |- context [String.eqb k ?s] => destruct (String.eqb k s) end;
          [exact I|]).
  exact I.
Qed.

Lemma sort_key_same_kind (h : loc -> lesson) (field : string) (a b : loc) :
  same_kind (sort_key h field a) (sort_key h field b).
Proof.
  unfold sort_key.
  pose proof (get_prop_same_kind (h a) (h b) field) as H.
  destruct (get_prop (h a) field), (get_prop (h b) field); simpl in *; tauto.
Qed.

(** ** The comparator *)

(** Ascending: [a] may stay before [b] unless its key is greater. *)
Lemma compareFn_asc (field : string) (a b : lesson) :
  compareFn field "asc" a b <= 0
  <-> js_lt (fold_case (get_prop b field)) (fold_case (get_prop a field)) = false.
Proof.
  unfold compareFn, js_gt. simpl.
  destruct (js_lt (fold_case (get_prop b field)) (fold_case (get_prop a field))) eqn:G;
  destruct (js_lt (fold_case (get_prop a field)) (fold_case (get_prop b field))) eqn:L;
  split; first [lia | discriminate | reflexivity].
Qed.

(** Any other direction: [a] may stay before [b] unless its key is
    smaller. *)
Lemma compareFn_desc (field dir : string) (a b : lesson) :
  dir <> "asc" ->
  compareFn field dir a b <= 0
  <-> js_lt (fold_case (get_prop a field)) (fold_case (get_prop b field)) = false.
Proof.
  intros Hd. unfold compareFn, js_gt.
  destruct (String.eqb_spec dir "asc") as [|_]; [contradiction|].
  destruct (js_lt (fold_case (get_prop b field)) (fold_case (get_prop a field))) eqn:G;
  destruct (js_lt (fold_case (get_prop a field)) (fold_case (get_prop b field))) eqn:L;
  try (apply js_lt_asym in G; congruence);
  split; first [lia | discriminate | reflexivity].
Qed.

(** Whatever the direction, two lessons are never each after the other. *)
Lemma compareFn_total (field dir : string) (a b : lesson) :
  0 < compareFn field dir a b -> compareFn field dir b a <= 0.
Proof.
  unfold compareFn, js_gt.
  destruct (js_lt (fold_case (get_prop b field)) (fold_case (get_prop a field))) eqn:G;
  destruct (js_lt (fold_case (get_prop a field)) (fold_case (get_prop b field))) eqn:L;
  destruct (String.eqb dir "asc"); try lia.
  all: apply js_lt_asym in G; congruence.
Qed.

(** ** Stable insertion sort *)

Section ArraySort.
Context {A : Type} (cmp : A -> A -> Z).

Hypothesis cmp_total : forall a b, 0 < cmp a b -> cmp b a <= 0.

Lemma sort_insert_HdRel (x y : A) (l : list A) :
  before cmp y x -> HdRel (before cmp) y l -> HdRel (before cmp) y (sort_insert cmp x l).
Proof.
  intros Hyx Hl. destruct l as [|z l]; simpl.
  - now constructor.
  - destruct (Z.leb_spec (cmp x z) 0); constructor; trivial.
    now inversion Hl.
Qed.

Lemma sort_insert_Sorted (x : A) (l : list A) :
  Sorted (before cmp) l -> Sorted (before cmp) (sort_insert cmp x l).
Proof.
  induction 1 as [|y l Hs IH Hd]; simpl.
  - repeat constructor.
  - destruct (Z.leb_spec (cmp x y) 0) as [Hle|Hgt].
    + constructor; [now constructor | now constructor].
    + constructor; [exact IH|].
      apply sort_insert_HdRel; [|exact Hd].
      now apply cmp_total.
Qed.

Lemma array_sort_Sorted (l : list A) : Sorted (before cmp) (array_sort cmp l).
Proof.
  induction l as [|x l IH]; simpl; [constructor|].
  now apply sort_insert_Sorted.
Qed.

(** An array already in order is left as it is: equal elements are not
    exchanged. *)
Lemma array_sort_fixed (l : list A) : Sorted (before cmp) l -> array_sort cmp l = l.
Proof.
  induction 1 as [|x l Hs IH Hd]; simpl; [reflexivity|].
  rewrite IH. destruct Hd as [|y l Hxy]; simpl; [reflexivity|].
  unfold before in Hxy. now apply Z.leb_le in Hxy as ->.
Qed.

Lemma array_sort_idempotent (l : list A) :
  array_sort cmp (array_sort cmp l) = array_sort cmp l.
Proof. apply array_sort_fixed, array_sort_Sorted. Qed.

Lemma sort_insert_Permutation (x : A) (l : list A) :
  sort_insert cmp x l ≡ₚ x :: l.
Proof.
  induction l as [|y l IH]; simpl; [reflexivity|].
  destruct (cmp x y <=? 0); [reflexivity|].
  rewrite IH. apply Permutation_swap.
Qed.

Lemma array_sort_Permutation (l : list A) : array_sort cmp l ≡ₚ l.
Proof.
  induction l as [|x l IH]; simpl; [reflexivity|].
  now rewrite sort_insert_Permutation, IH.
Qed.

(** An element that must go after all the others lands at the end. *)
Lemma sort_insert_last (x : A) (l : list A) :
  Forall (fun y => 0 < cmp x y) l -> sort_insert cmp x l = l ++ [x].
Proof.
  induction 1 as [|y l Hy _ IH]; simpl; [reflexivity|].
  destruct (Z.leb_spec (cmp x y) 0); [lia|]. now rewrite IH.
Qed.

End ArraySort.

(** ** sortedLessons *)

(** Both files compute the same list. *)
Lemma sortedLessons_sort_by (st : state) :
  (App.sortedLessons st).1 = sort_by (heap st) (sortBy st) (sortOrder st) (lessons st)
  /\ (Part0.sortedLessons st).1 = (App.sortedLessons st).1.
Proof. split; reflexivity. Qed.

(** part_000 sorts a copy: the state, and with it the catalog, is the
    one it started from. *)
Lemma Part0_sortedLessons_pure (st : state) : (Part0.sortedLessons st).2 = st.
Proof. reflexivity. Qed.

(** In app.js the catalog becomes the sorted list. *)
Lemma App_sortedLessons_in_place (st : state) :
  lessons (App.sortedLessons st).2 = (App.sortedLessons st).1.
Proof. reflexivity. Qed.

(** C7 (app.js).  On the catalog as loaded (Maths, English, Physics),
    with the default sort by subject, reading [sortedLessons] leaves the
    catalog in the order English, Maths, Physics: the array of the
    caller has been reordered, where part_000 leaves it alone. *)
Theorem App_sortedLessons_reorders_catalog :
  lessons Shop.loaded = [0; 1; 2]%nat
  /\ lessons (App.sortedLessons Shop.loaded).2 = [1; 0; 2]%nat
  /\ lessons (Part0.sortedLessons Shop.loaded).2 = [0; 1; 2]%nat.
Proof. repeat split; vm_compute; reflexivity. Qed.

Section SortBy.
Variables (h : loc -> lesson) (field : string).

#[local] Instance key_lt_trans : Transitive (key_lt h field).
Proof. intros a b c. apply js_lt_trans. Qed.

Lemma sort_by_idempotent (dir : string) (l : list loc) :
  sort_by h field dir (sort_by h field dir l) = sort_by h field dir l.
Proof.
  apply array_sort_idempotent. intros a b. apply compareFn_total.
Qed.

Lemma sort_by_Permutation (dir : string) (l : list loc) :
  sort_by h field dir l ≡ₚ l.
Proof. apply array_sort_Permutation. Qed.

(** With no two keys equal, the ascending order is strict. *)
Lemma sort_by_asc_strict (l : list loc) :
  NoDup (sort_key h field <$> l) ->
  StronglySorted (key_lt h field) (sort_by h field "asc" l).
Proof.
  intros Hnd. apply Sorted_StronglySorted; [apply _|].
  assert (Hs : Sorted (before (fun a b => compareFn field "asc" (h a) (h b)))
                      (sort_by h field "asc" l)).
  { apply array_sort_Sorted. intros a b. apply compareFn_total. }
  assert (Hk : NoDup (sort_key h field <$> sort_by h field "asc" l)).
  { now rewrite sort_by_Permutation. }
  induction Hs as [|a s Hs IH Hd]; [constructor|].
  rewrite fmap_cons in Hk. apply NoDup_cons in Hk as [Ha Hk].
  constructor; [now apply IH|].
  destruct Hd as [|b s Hab]; constructor.
  unfold before in Hab. apply compareFn_asc in Hab.
  unfold key_lt.
  destruct (js_lt (sort_key h field a) (sort_key h field b)) eqn:L; [reflexivity|].
  exfalso. apply Ha. rewrite fmap_cons. apply elem_of_cons. left.
  apply js_lt_trichotomy; [apply sort_key_same_kind | exact L | exact Hab].
Qed.

(** A strictly ascending list sorted in another direction comes out
    reversed. *)
Lemma sort_by_desc_reverse (dir : string) (s : list loc) :
  dir <> "asc" ->
  StronglySorted (key_lt h field) s -> sort_by h field dir s = reverse s.
Proof.
  intros Hd. induction 1 as [|a s Hs IH Ha]; [reflexivity|].
  unfold sort_by in *. simpl. rewrite IH, reverse_cons.
  apply sort_insert_last.
  apply Forall_reverse. eapply Forall_impl; [exact Ha|].
  intros b Hab. simpl in Hab.
  destruct (Z.leb_spec (compareFn field dir (h a) (h b)) 0) as [Hle|]; [|lia].
  apply (compareFn_desc field dir _ _ Hd) in Hle.
  unfold key_lt, sort_key in Hab. congruence.
Qed.

End SortBy.

(** C8, as the code has it.  Sorting a sorted list again with the same
    field and direction gives the same list, whatever the list.  Sorting
    descending the result of an ascending sort gives its exact reverse
    when no two lessons of the list have the same folded key; lessons
    with equal keys keep their order in both directions. *)
Theorem sort_twice (h : loc -> lesson) (field : string) (l : list loc) :
  (forall dir, sort_by h field dir (sort_by h field dir l) = sort_by h field dir l)
  /\ (NoDup (sort_key h field <$> l) ->
      forall dir, dir <> "asc" ->
        sort_by h field dir (sort_by h field "asc" l)
        = reverse (sort_by h field "asc" l)).
Proof.
  split.
  - intros dir. apply sort_by_idempotent.
  - intros Hnd dir Hd. apply sort_by_desc_reverse; [exact Hd|].
    now apply sort_by_asc_strict.
Qed.

Lemma sort_twice_witness :
  NoDup (sort_key (heap Shop.loaded) "subject" <$> [0; 1; 2]%nat)
  /\ sort_by (heap Shop.loaded) "subject" "desc"
       (sort_by (heap Shop.loaded) "subject" "asc" [0; 1; 2]%nat)
     = reverse (sort_by (heap Shop.loaded) "subject" "asc" [0; 1; 2]%nat).
Proof.
  assert (Hnd : NoDup (sort_key (heap Shop.loaded) "subject" <$> [0; 1; 2]%nat)).
  { apply (bool_decide_unpack _). vm_compute. reflexivity. }
  split; [exact Hnd|].
  apply (proj2 (sort_twice (heap Shop.loaded) "subject" [0; 1; 2]%nat) Hnd "desc").
  discriminate.
Defined.

(** C8, as stated, fails on two lessons of the same subject: Algebra and
    Geometry stay in that order in both directions. *)
Lemma desc_does_not_reverse_ties :
  ~ desc_reverses_asc Shop.two_maths "subject" [0; 1]%nat.
Proof. unfold desc_reverses_asc. vm_compute. discriminate. Qed.

(** ** The cart *)

(** [findIndex] and [find] name the same element. *)
Lemma findIndex_find {A} (p : A -> bool) (l : list A) :
  match List.find p l with
  | Some x => 0 <= findIndex p l /\ l !! Z.to_nat (findIndex p l) = Some x
  | None => findIndex p l = -1
  end.
Proof.
  induction l as [|a l IH]; simpl; [reflexivity|].
  destruct (p a); [split; [lia | reflexivity]|].
  destruct (List.find p l) as [x|].
  - destruct IH as [Hge Hx].
    destruct (Z.eqb_spec (findIndex p l) (-1)) as [|_]; [lia|].
    split; [lia|].
    replace (Z.to_nat (findIndex p l + 1)) with (S (Z.to_nat (findIndex p l))) by lia.
    exact Hx.
  - now rewrite IH.
Qed.

Lemma find_elem {A} (p : A -> bool) (l : list A) (x : A) :
  List.find p l = Some x -> x ∈ l /\ p x = true.
Proof.
  induction l as [|a l IH]; simpl; [discriminate|].
  destruct (p a) eqn:E.
  - intros [= ->]. split; [left | exact E].
  - intros H. destruct (IH H). split; [now right | assumption].
Qed.

Lemma find_none {A} (p : A -> bool) (l : list A) (x : A) :
  List.find p l = None -> x ∈ l -> p x = false.
Proof.
  induction l as [|a l IH]; simpl; intros H Hx; [inversion Hx|].
  destruct (p a) eqn:E; [discriminate|].
  apply elem_of_cons in Hx as [->|Hx]; auto.
Qed.

(** What [removeFromCart] does to the objects, the cart and the catalog
    is the same in both files. *)
Lemma removeFromCart_heap (v : variant) (st : state) (item : loc) (index : Z) :
  heap (removeFromCart v st item index) = heap (restore st item).
Proof.
  destruct v; unfold removeFromCart, App.removeFromCart, Part0.removeFromCart, restore.
  - pose proof (findIndex_find (same_id st item) (lessons st)) as H.
    destruct (List.find (same_id st item) (lessons st)) as [l|].
    + destruct H as [Hge ->].
      destruct (Z.eqb_spec (findIndex (same_id st item) (lessons st)) (-1)); [lia|].
      simpl. now destruct (_ =? _)%nat.
    + rewrite H. simpl. now destruct (_ =? _)%nat.
  - destruct (List.find (same_id st item) (lessons st)); simpl;
      now destruct (_ =? _)%nat.
Qed.

Lemma removeFromCart_cart (v : variant) (st : state) (item : loc) (index : Z) :
  cart (removeFromCart v st item index) = splice1 (cart st) index.
Proof.
  destruct v; unfold removeFromCart, App.removeFromCart, Part0.removeFromCart.
  - destruct (negb _); [destruct (lessons st !! _)|]; simpl;
      now destruct (_ =? _)%nat.
  - destruct (List.find _ _); simpl; now destruct (_ =? _)%nat.
Qed.

Lemma removeFromCart_lessons (v : variant) (st : state) (item : loc) (index : Z) :
  lessons (removeFromCart v st item index) = lessons st.
Proof.
  destruct v; unfold removeFromCart, App.removeFromCart, Part0.removeFromCart.
  - destruct (negb _); [destruct (lessons st !! _)|]; simpl;
      now destruct (_ =? _)%nat.
  - destruct (List.find _ _); simpl; now destruct (_ =? _)%nat.
Qed.

Lemma addToCart_lessons (st : state) (a : loc) :
  lessons (addToCart st a) = lessons st.
Proof. unfold addToCart. now destruct (0 <? _). Qed.

Lemma step_lessons (v : variant) (st : state) (c : call) :
  lessons (step v st c) = lessons st.
Proof.
  destruct c; simpl; [apply addToCart_lessons | apply removeFromCart_lessons].
Qed.

(** Only [space] is ever written. *)
Lemma set_space_id (h : loc -> lesson) (a l : loc) (n : Z) :
  _id ((<[a := set_space (h a) n]> h) l) = _id (h l).
Proof.
  destruct (decide (a = l)) as [->|Hne].
  - now rewrite fn_lookup_insert.
  - now rewrite fn_lookup_insert_ne.
Qed.

Lemma addToCart_ids (st : state) (a : loc) : ids_kept st (addToCart st a).
Proof.
  intros l. unfold addToCart. destruct (0 <? _); [|reflexivity].
  simpl. apply set_space_id.
Qed.

Lemma restore_ids (st : state) (item : loc) : ids_kept st (restore st item).
Proof.
  intros l. unfold restore. destruct (List.find _ _); [|reflexivity].
  simpl. apply set_space_id.
Qed.

Lemma step_ids (v : variant) (st : state) (c : call) : ids_kept st (step v st c).
Proof.
  destruct c as [a|item index]; simpl; [apply addToCart_ids|].
  intros l. rewrite removeFromCart_heap. apply restore_ids.
Qed.

Lemma count_in_ext (h h' : loc -> lesson) (c : list loc) (id : string) :
  (forall l, _id (h' l) = _id (h l)) -> count_in h' c id = count_in h c id.
Proof.
  intros H. unfold count_in. do 2 f_equal.
  apply list_filter_iff. intros l. now rewrite H.
Qed.

Lemma count_in_snoc (h : loc -> lesson) (c : list loc) (a : loc) (id : string) :
  count_in h (c ++ [a]) id
  = count_in h c id + (if decide (_id (h a) = id) then 1 else 0).
Proof.
  unfold count_in. rewrite filter_app, length_app, filter_cons, filter_nil.
  destruct (decide (_id (h a) = id)); simpl; lia.
Qed.

Lemma count_in_delete (h : loc -> lesson) (c : list loc) (i : nat) (a : loc)
      (id : string) :
  c !! i = Some a ->
  count_in h (delete i c) id
  = count_in h c id - (if decide (_id (h a) = id) then 1 else 0).
Proof.
  intros Hi. unfold count_in.
  rewrite <- (take_drop_middle c i a Hi) at 2.
  rewrite delete_take_drop, !filter_app, !length_app, filter_cons.
  destruct (decide (_id (h a) = id)); simpl; lia.
Qed.

(** In range, [splice] deletes the entry at the index. *)
Lemma splice1_in_range {A} (l : list A) (index : Z) (x : A) :
  0 <= index -> l !! Z.to_nat index = Some x ->
  splice1 l index = delete (Z.to_nat index) l.
Proof.
  intros Hge Hx. unfold splice1.
  apply lookup_lt_Some in Hx.
  destruct (Z.ltb_spec index 0); [lia|].
  f_equal. lia.
Qed.

(** ** Conservation of space *)

Lemma fmap_NoDup_inj {A B} (f : A -> B) (l : list A) (x y : A) :
  NoDup (f <$> l) -> x ∈ l -> y ∈ l -> f x = f y -> x = y.
Proof.
  induction l as [|a l IH]; intros Hnd Hx Hy Hf; [inversion Hx|].
  rewrite fmap_cons in Hnd. apply NoDup_cons in Hnd as [Ha Hnd].
  apply elem_of_cons in Hx as [->|Hx]; apply elem_of_cons in Hy as [->|Hy];
    trivial.
  - exfalso. apply Ha. rewrite Hf. now apply list_elem_of_fmap_2.
  - exfalso. apply Ha. rewrite <- Hf. now apply list_elem_of_fmap_2.
  - now apply IH.
Qed.

Lemma catalog_id_inj (st : state) (l1 l2 : loc) :
  NoDup (catalog_ids st) -> l1 ∈ lessons st -> l2 ∈ lessons st ->
  _id (heap st l1) = _id (heap st l2) -> l1 = l2.
Proof. apply (fmap_NoDup_inj (fun l => _id (heap st l))). Qed.

(** A successful add is one step: one unit less, one entry more. *)
Lemma addToCart_step (st : state) (a : loc) :
  0 < space (heap st a) ->
  cart (addToCart st a) = cart st ++ [a]
  /\ space (heap (addToCart st a) a) = space (heap st a) - 1
  /\ forall l, l <> a -> heap (addToCart st a) l = heap st l.
Proof.
  intros Hpos. unfold addToCart.
  apply Z.ltb_lt in Hpos as ->. simpl. repeat split.
  - now rewrite fn_lookup_insert.
  - intros l Hne. now rewrite fn_lookup_insert_ne.
Qed.

Lemma held_add (st : state) (a l : loc) :
  NoDup (catalog_ids st) -> a ∈ lessons st -> l ∈ lessons st ->
  held (addToCart st a) l = held st l.
Proof.
  intros Hnd Ha Hl. unfold held.
  rewrite (addToCart_ids st a l).
  unfold addToCart. destruct (Z.ltb_spec 0 (space (heap st a))); [|reflexivity].
  change (count_id ?s ?i) with (count_in (heap s) (cart s) i). simpl.
  rewrite (count_in_ext (heap st)) by (intros; apply set_space_id).
  rewrite count_in_snoc.
  destruct (decide (a = l)) as [->|Hne].
  - rewrite fn_lookup_insert, decide_True by reflexivity. simpl. lia.
  - rewrite fn_lookup_insert_ne, decide_False; [lia | | assumption].
    intros Heq. apply Hne. now apply (catalog_id_inj st).
Qed.

Lemma held_restore (st : state) (item l : loc) :
  NoDup (catalog_ids st) -> l ∈ lessons st ->
  space (heap (restore st item) l)
  = space (heap st l) + (if decide (_id (heap st item) = _id (heap st l)) then 1 else 0).
Proof.
  intros Hnd Hl. unfold restore.
  destruct (List.find (same_id st item) (lessons st)) as [lf|] eqn:F.
  - apply find_elem in F as [Hlf Hid].
    unfold same_id in Hid. apply String.eqb_eq in Hid. simpl.
    destruct (decide (lf = l)) as [->|Hne].
    + rewrite fn_lookup_insert, decide_True by congruence. reflexivity.
    + rewrite fn_lookup_insert_ne, decide_False; [lia | | assumption].
      intros Heq. apply Hne. apply (catalog_id_inj st); congruence.
  - apply (find_none _ _ l F) in Hl. unfold same_id in Hl.
    apply String.eqb_neq in Hl. rewrite decide_False; [lia | congruence].
Qed.

Lemma held_remove (v : variant) (st : state) (item : loc) (index : Z) (l : loc) :
  NoDup (catalog_ids st) -> agrees st (Remove item index) -> l ∈ lessons st ->
  held (removeFromCart v st item index) l = held st l.
Proof.
  intros Hnd [Hge Hitem] Hl. unfold held.
  change (count_id ?s ?i) with (count_in (heap s) (cart s) i).
  rewrite removeFromCart_heap, removeFromCart_cart.
  rewrite (splice1_in_range _ _ item Hge Hitem).
  rewrite (restore_ids st item l).
  rewrite (count_in_ext (heap st)) by apply restore_ids.
  rewrite (count_in_delete _ _ _ item) by assumption.
  rewrite held_restore by assumption.
  destruct (decide (_id (heap st item) = _id (heap st l))); lia.
Qed.

Lemma held_step (v : variant) (st : state) (c : call) (l : loc) :
  NoDup (catalog_ids st) -> agrees st c -> l ∈ lessons st ->
  held (step v st c) l = held st l.
Proof.
  destruct c as [a|item index]; simpl; intros Hnd Hc Hl.
  - now apply held_add.
  - now apply held_remove.
Qed.

Lemma step_catalog_ids (v : variant) (st : state) (c : call) :
  catalog_ids (step v st c) = catalog_ids st.
Proof.
  unfold catalog_ids. rewrite step_lessons.
  apply list_fmap_ext. intros _ l _. apply step_ids.
Qed.

(** The invariant carried along a sequence of calls. *)
Lemma run_invariant (v : variant) (cs : list call) :
  forall st0, NoDup (catalog_ids st0) -> all_agree v st0 cs ->
  forall st, st ∈ run v st0 cs ->
    lessons st = lessons st0
    /\ forall l, l ∈ lessons st0 -> held st l = held st0 l.
Proof.
  induction cs as [|c cs IH]; intros st0 Hnd Hcs st Hst; [inversion Hst|].
  destruct Hcs as [Hc Hcs]. simpl in Hst.
  apply elem_of_cons in Hst as [->|Hst].
  - split; [apply step_lessons|]. intros l Hl. now apply held_step.
  - destruct (IH (step v st0 c)) with (st := st) as [Hls Hheld]; trivial.
    { now rewrite step_catalog_ids. }
    rewrite step_lessons in Hls. split; [exact Hls|].
    intros l Hl. rewrite Hheld by now rewrite step_lessons.
    now apply held_step.
Qed.

(** C3, as the code has it.  From a state whose catalog has distinct
    ids, after each call of a sequence of calls that agree with the
    state they are made in, the catalog is the same and, for each of its
    lessons, the space plus the number of cart entries of its id is what
    it was at the start: the space at the sync plus the entries of that
    id the cart already held then. *)
Theorem space_conservation (v : variant) (st0 : state) (cs : list call) :
  NoDup (catalog_ids st0) -> all_agree v st0 cs ->
  forall st, st ∈ run v st0 cs ->
    lessons st = lessons st0
    /\ forall l, l ∈ lessons st0 ->
         space (heap st l) + count_id st (_id (heap st l))
         = space (heap st0 l) + count_id st0 (_id (heap st0 l)).
Proof.
  intros Hnd Hcs st Hst.
  destruct (run_invariant v cs st0 Hnd Hcs st Hst) as [Hls Hheld].
  split; [exact Hls|].
  intros l Hl. exact (Hheld l Hl).
Qed.

(** With an empty cart at the sync, the sum is the synced space. *)
Corollary conservation_from_empty_cart (v : variant) (st0 : state)
          (cs : list call) :
  NoDup (catalog_ids st0) -> cart st0 = [] -> all_agree v st0 cs ->
  forall st, st ∈ run v st0 cs ->
  forall l, l ∈ lessons st0 ->
    space (heap st l) + count_id st (_id (heap st l)) = space (heap st0 l).
Proof.
  intros Hnd Hcart Hcs st Hst l Hl.
  destruct (run_invariant v cs st0 Hnd Hcs st Hst) as [_ H].
  specialize (H l Hl). unfold held in H. rewrite H.
  unfold count_id. rewrite Hcart, filter_nil. simpl. lia.
Qed.

Lemma space_conservation_witness :
  let cs := [Add 0%nat; Add 0%nat; Remove 0%nat 1; Add 1%nat] in
  let st := step app_js (step app_js (step app_js (step app_js Shop.loaded
              (Add 0%nat)) (Add 0%nat)) (Remove 0%nat 1)) (Add 1%nat) in
  NoDup (catalog_ids Shop.loaded) /\ all_agree app_js Shop.loaded cs
  /\ st ∈ run app_js Shop.loaded cs
  /\ lessons st = lessons Shop.loaded
  /\ forall l, l ∈ lessons Shop.loaded ->
       space (heap st l) + count_id st (_id (heap st l))
       = space (heap Shop.loaded l)
         + count_id Shop.loaded (_id (heap Shop.loaded l)).
Proof.
  intros cs st.
  assert (Hnd : NoDup (catalog_ids Shop.loaded)).
  { apply (bool_decide_unpack _). vm_compute. reflexivity. }
  assert (Hcs : all_agree app_js Shop.loaded cs).
  { cbn [cs all_agree agrees]. repeat split;
      first [ lia | apply (bool_decide_unpack _); vm_compute; reflexivity
            | vm_compute; reflexivity ]. }
  assert (Hst : st ∈ run app_js Shop.loaded cs).
  { apply list_elem_of_lookup. exists 3%nat. reflexivity. }
  split; [exact Hnd|]. split; [exact Hcs|]. split; [exact Hst|].
  exact (space_conservation app_js Shop.loaded cs Hnd Hcs st Hst).
Defined.

(** C3, as stated, fails after a search made with a lesson in the cart:
    the catalog is replaced by the answer of the server, lesson 1 comes
    back with space 5 while the cart still holds one entry of it, and
    one more add leaves space 4 and two entries. *)
Lemma stale_cart_breaks_conservation :
  ~ conserved_since_sync app_js (Shop.searched [Shop.maths]).
Proof.
  intros H.
  specialize (H [Add 3%nat]).
  assert (Hcs : all_agree app_js (Shop.searched [Shop.maths]) [Add 3%nat]).
  { split; [|exact I]. cbn [agrees].
    apply (bool_decide_unpack _). vm_compute. reflexivity. }
  specialize (H Hcs _ (list_elem_of_here _ _) 3%nat).
  assert (Hl : 3%nat ∈ lessons (Shop.searched [Shop.maths])).
  { apply (bool_decide_unpack _). vm_compute. reflexivity. }
  specialize (H Hl). vm_compute in H. discriminate.
Qed.

(** ** A lesson with no space left *)

Lemma restore_space (st : state) (item l : loc) :
  space (heap st l) <= space (heap (restore st item) l).
Proof.
  unfold restore. destruct (List.find _ _) as [lf|]; [|reflexivity].
  simpl. destruct (decide (lf = l)) as [->|Hne].
  - rewrite fn_lookup_insert. simpl. lia.
  - now rewrite fn_lookup_insert_ne.
Qed.

(** C6.  [addToCart] on a lesson whose space is 0 returns the state it
    was given: same cart, same objects, nothing raised.  And if no
    object has a negative space, none has after an add or a remove, in
    either file and whatever the arguments. *)
Theorem addToCart_without_space (st : state) :
  (forall l, space (heap st l) = 0 -> addToCart st l = st)
  /\ ((forall l, 0 <= space (heap st l)) ->
      forall v c l, 0 <= space (heap (step v st c) l)).
Proof.
  split.
  - intros l H. unfold addToCart. now rewrite H.
  - intros Hpos v [a|item index] l; simpl.
    + unfold addToCart. destruct (Z.ltb_spec 0 (space (heap st a))); [|apply Hpos].
      simpl. destruct (decide (a = l)) as [->|Hne].
      * rewrite fn_lookup_insert. simpl. lia.
      * rewrite fn_lookup_insert_ne by assumption. apply Hpos.
    + rewrite removeFromCart_heap.
      etransitivity; [apply Hpos | apply restore_space].
Qed.

Lemma addToCart_without_space_witness :
  space (heap Shop.loaded 2%nat) = 0
  /\ addToCart Shop.loaded 2%nat = Shop.loaded
  /\ (forall l, 0 <= space (heap Shop.loaded l))
  /\ forall l, 0 <= space (heap (step app_js Shop.loaded (Add 0%nat)) l).
Proof.
  assert (H0 : space (heap Shop.loaded 2%nat) = 0) by reflexivity.
  assert (Hpos : forall l, 0 <= space (heap Shop.loaded l)).
  { intros [|[|[|l]]]; vm_compute; discriminate. }
  split; [exact H0|]. split.
  - exact (proj1 (addToCart_without_space Shop.loaded) 2%nat H0).
  - split; [exact Hpos|].
    exact (proj2 (addToCart_without_space Shop.loaded) Hpos app_js (Add 0%nat)).
Defined.

(** ** Cart entries are the lessons themselves *)

Lemma addToCart_cart_lookup (st : state) (a : loc) (i : nat) (x : loc) :
  cart st !! i = Some x -> cart (addToCart st a) !! i = Some x.
Proof.
  intros H. unfold addToCart. destruct (0 <? _); [|exact H].
  simpl. now apply lookup_app_l_Some.
Qed.

Lemma adds_cart_lookup (ls : list loc) :
  forall st i x, cart st !! i = Some x ->
    cart (foldl addToCart st ls) !! i = Some x.
Proof.
  induction ls as [|a ls IH]; intros st i x H; simpl; [exact H|].
  now apply IH, addToCart_cart_lookup.
Qed.

(** C9.  A successful [addToCart] appends the reference it received.
    Read through the cart, the new entry is the lesson as it now is,
    with its space just decremented; it still is after any number of
    further adds; and in any later state where that reference is in the
    cart, the entry shows the object of the lesson as it is then. *)
Theorem cart_entry_is_live (st : state) (lesson : loc) :
  0 < space (heap st lesson) ->
  let st' := addToCart st lesson in
  let i := length (cart st) in
  cart st' = cart st ++ [lesson]
  /\ entry st' i = Some (heap st' lesson)
  /\ space (heap st' lesson) = space (heap st lesson) - 1
  /\ (forall ls, entry (foldl addToCart st' ls) i
                 = Some (heap (foldl addToCart st' ls) lesson))
  /\ (forall st'' j, cart st'' !! j = Some lesson ->
                     entry st'' j = Some (heap st'' lesson)).
Proof.
  intros Hpos st' i.
  destruct (addToCart_step st lesson Hpos) as (Hcart & Hspace & _).
  assert (Hi : cart st' !! i = Some lesson).
  { subst st' i. rewrite Hcart. apply list_lookup_middle. reflexivity. }
  repeat split; trivial.
  - unfold entry. now rewrite Hi.
  - intros ls. unfold entry.
    now rewrite (adds_cart_lookup ls st' i lesson Hi).
  - intros st'' j Hj. unfold entry. now rewrite Hj.
Qed.

Lemma cart_entry_is_live_witness :
  0 < space (heap Shop.loaded 0%nat)
  /\ cart (addToCart Shop.loaded 0%nat) = [0%nat]
  /\ entry (addToCart Shop.loaded 0%nat) 0
     = Some (heap (addToCart Shop.loaded 0%nat) 0%nat)
  /\ space (heap (addToCart Shop.loaded 0%nat) 0%nat) = 4.
Proof.
  assert (Hpos : 0 < space (heap Shop.loaded 0%nat)) by reflexivity.
  destruct (cart_entry_is_live Shop.loaded 0%nat Hpos) as (H1 & H2 & H3 & _).
  split; [exact Hpos|]. split; [exact H1|]. split; [exact H2|]. exact H3.
Defined.

(** The second add of lesson 1 is seen through the entry the first add
    made: both entries of the cart show space 3. *)
Example second_add_seen_through_first_entry :
  space <$> entry (addToCart Shop.loaded 0%nat) 0 = Some 4
  /\ space <$> entry Shop.two_in_cart 0 = Some 3
  /\ space <$> entry Shop.two_in_cart 1 = Some 3.
Proof. repeat split. Qed.

(** ** The message after a removal *)

(** C10 (app.js).  After [removeFromCart] the cart is the old one with
    the entry at the index spliced out; the order message is [null] if
    that cart is empty, and the message of before otherwise. *)
Theorem App_removeFromCart_message (st : state) (item : loc) (index : Z) :
  let st' := App.removeFromCart st item index in
  cart st' = splice1 (cart st) index
  /\ orderMessage st' = match cart st' with
                        | [] => None
                        | _ :: _ => orderMessage st
                        end.
Proof.
  intros st'. split; [apply (removeFromCart_cart app_js)|].
  subst st'. unfold App.removeFromCart.
  set (st1 := if negb _ then _ else st).
  assert (Hm : orderMessage st1 = orderMessage st).
  { subst st1. destruct (negb _); [|reflexivity].
    now destruct (lessons st !! _). }
  assert (Hc : cart st1 = cart st).
  { subst st1. destruct (negb _); [|reflexivity].
    now destruct (lessons st !! _). }
  rewrite <- Hm. clearbody st1. clear Hm Hc.
  change (cart (set_cart st1 ?c)) with c.
  destruct (splice1 (cart st1) index); reflexivity.
Qed.

(** part_000 closes the cart view there and leaves the message alone. *)
Lemma Part0_removeFromCart_message (st : state) (item : loc) (index : Z) :
  orderMessage (Part0.removeFromCart st item index) = orderMessage st.
Proof.
  unfold Part0.removeFromCart. destruct (List.find _ _); simpl;
    now destruct (_ =? _)%nat.
Qed.

(** ** submitOrder: what is sent *)

Lemma puts_in_app (tr1 tr2 : list effect) :
  puts_in (tr1 ++ tr2) = puts_in tr1 ++ puts_in tr2.
Proof. apply omap_app. Qed.

Lemma puts_in_sent (rs : list (option request)) :
  puts_in (sent rs) = omap put_of rs.
Proof.
  unfold puts_in, sent.
  induction rs as [|[[| | |i s]|] rs IH]; simpl;
    first [reflexivity | exact IH | f_equal; exact IH].
Qed.

Lemma load_no_put (st : state) (net : network) (r : request) (log : string) :
  (forall i s, r <> PUT_lessons i s) -> puts_in (load st net r log).2 = [].
Proof.
  intros Hr. unfold load.
  destruct r; try (exfalso; eapply Hr; reflexivity);
    destruct (net _) as [| |resp]; try destruct (ok resp); reflexivity.
Qed.

(** Once the order is accepted, the updates sent are those of
    [updateRequests], whatever becomes of them. *)
Lemma submitOrder_puts (v : variant) (st : state) (net : network) :
  order_accepted v st net ->
  puts_in (submitOrder v st net).2 = omap put_of (updateRequests v st).
Proof.
  intros (resp & Hpost & Hok). rewrite <- puts_in_sent.
  destruct v; unfold submitOrder, updateRequests, orderPayload in *.
  - unfold App.submitOrder. rewrite Hpost, Hok. simpl negb. cbv iota.
    change (App.updateRequests (set_orderMessage st _)) with (App.updateRequests st).
    destruct (promise_all _); unfold App.failed; simpl snd.
    + reflexivity.
    + rewrite app_comm_cons, puts_in_app. simpl. apply app_nil_r.
    + unfold App.finalize, fetchLessons.
      destruct (load _ net GET_lessons _) as [st' tr'] eqn:E.
      simpl snd. rewrite app_comm_cons, puts_in_app.
      replace tr' with (load
        (set_orderMessage (set_showCart (set_checkout (set_cart
           (set_orderMessage st (Some submitting)) []) (Checkout "" "")) false)
           (Some App.success)) net GET_lessons "Error fetching lessons:").2
        by now rewrite E.
      rewrite load_no_put by discriminate. apply app_nil_r.
  - unfold Part0.submitOrder. rewrite Hpost, Hok. simpl negb. cbv iota.
    change (Part0.updateRequests (set_orderMessage st _)) with (Part0.updateRequests st).
    destruct (promise_all _); unfold Part0.failed, Part0.finalize; simpl snd.
    + reflexivity.
    + rewrite app_comm_cons, puts_in_app. simpl. apply app_nil_r.
    + rewrite app_comm_cons, puts_in_app. simpl. apply app_nil_r.
Qed.

(** A list of updates built from a list with distinct keys has, for the
    key of one of its elements, the update of that element and no other. *)
Lemma updates_of_key {A} (f : A -> string) (g : A -> option Z) (l : list A) (a : A) :
  NoDup (f <$> l) -> a ∈ l ->
  filter (fun p => p.1 = f a) (omap (fun x => pair (f x) <$> g x) l)
  = match g a with Some n => [(f a, n)] | None => [] end.
Proof.
  intros Hnd Ha.
  assert (Habs : forall l', f a ∉ f <$> l' ->
            filter (fun p : string * Z => p.1 = f a)
                   (omap (fun x => pair (f x) <$> g x) l') = []).
  { induction l' as [|x l' IH]; intros Hx; [reflexivity|].
    rewrite fmap_cons in Hx. apply not_elem_of_cons in Hx as [Hne Hx].
    simpl. destruct (g x); simpl; [|now apply IH].
    rewrite filter_cons_False by (simpl; congruence). now apply IH. }
  induction l as [|x l IH]; [inversion Ha|].
  rewrite fmap_cons in Hnd. apply NoDup_cons in Hnd as [Hx Hnd].
  apply elem_of_cons in Ha as [<-|Ha].
  - simpl. destruct (g a); simpl; [|now apply Habs].
    rewrite filter_cons_True by reflexivity. now rewrite Habs.
  - assert (Hne : f x <> f a).
    { intros Heq. apply Hx. rewrite Heq. now apply list_elem_of_fmap_2. }
    simpl. destruct (g x); simpl; [|now apply IH].
    rewrite filter_cons_False by (simpl; congruence). now apply IH.
Qed.

Lemma updates_of_absent_key {A} (f : A -> string) (g : A -> option Z)
      (l : list A) (id : string) :
  id ∉ f <$> l ->
  filter (fun p => p.1 = id) (omap (fun x => pair (f x) <$> g x) l) = [].
Proof.
  induction l as [|x l IH]; intros Hx; [reflexivity|].
  rewrite fmap_cons in Hx. apply not_elem_of_cons in Hx as [Hne Hx].
  simpl. destruct (g x); simpl; [|now apply IH].
  rewrite filter_cons_False by (simpl; congruence). now apply IH.
Qed.

(** [new Set] keeps each element once. *)
Lemma set_add_spec (s : list string) (x : string) :
  NoDup s -> NoDup (set_add s x) /\ forall y, y ∈ set_add s x <-> y ∈ s \/ y = x.
Proof.
  intros Hnd. unfold set_add. destruct (decide (x ∈ s)) as [Hin|Hout].
  - split; [exact Hnd|]. intros y. split; [tauto|]. intros [?| ->]; assumption.
  - split.
    + apply NoDup_app. repeat split; trivial.
      * intros y Hy Hy'. apply list_elem_of_singleton in Hy' as ->. contradiction.
      * apply NoDup_singleton.
    + intros y. rewrite elem_of_app, list_elem_of_singleton. tauto.
Qed.

Lemma foldl_set_add_spec (l : list string) :
  forall s, NoDup s ->
    NoDup (foldl set_add s l)
    /\ forall y, y ∈ foldl set_add s l <-> y ∈ s \/ y ∈ l.
Proof.
  induction l as [|x l IH]; intros s Hnd; simpl.
  - split; [exact Hnd|]. intros y. rewrite elem_of_nil. tauto.
  - destruct (set_add_spec s x Hnd) as [Hnd' Hin].
    destruct (IH _ Hnd') as [Hnd'' Hin'']. split; [exact Hnd''|].
    intros y. rewrite Hin'', Hin, elem_of_cons. tauto.
Qed.

Lemma new_Set_spec (l : list string) :
  NoDup (new_Set l) /\ forall y, y ∈ new_Set l <-> y ∈ l.
Proof.
  destruct (foldl_set_add_spec l [] (NoDup_nil_2)) as [Hnd Hin].
  split; [exact Hnd|]. intros y. rewrite Hin, elem_of_nil. tauto.
Qed.

(** An id is in the cart exactly when its count is positive. *)
Lemma count_id_pos (st : state) (id : string) :
  id ∈ cart_ids st <-> 0 < count_id st id.
Proof.
  unfold cart_ids, count_id. induction (cart st) as [|c l IH].
  - simpl. rewrite elem_of_nil. split; [tauto | lia].
  - rewrite fmap_cons, elem_of_cons, filter_cons.
    destruct (decide (_id (heap st c) = id)) as [->|Hne]; simpl.
    + split; [lia | tauto].
    + rewrite IH. split; [intros [?|?]; [congruence | assumption] | tauto].
Qed.

Lemma omap_fmap_ext {A B C} (h : A -> B) (k : B -> option C) (k' : A -> option C)
      (l : list A) :
  (forall x, k (h x) = k' x) -> omap k (h <$> l) = omap k' l.
Proof.
  intros H. induction l as [|x l IH]; [reflexivity|].
  rewrite fmap_cons. simpl. rewrite H. destruct (k' x); simpl; now f_equal.
Qed.

Lemma find_catalog_id (st : state) (l : loc) :
  NoDup (catalog_ids st) -> l ∈ lessons st ->
  List.find (fun l' => String.eqb (_id (heap st l')) (_id (heap st l))) (lessons st)
  = Some l.
Proof.
  intros Hnd Hl.
  destruct (List.find _ (lessons st)) as [l'|] eqn:F.
  - apply find_elem in F as [Hl' Hid]. apply String.eqb_eq in Hid.
    f_equal. now apply (catalog_id_inj st).
  - apply (find_none _ _ l F) in Hl. now rewrite String.eqb_refl in Hl.
Qed.

Lemma find_no_catalog_id (st : state) (id : string) :
  id ∉ catalog_ids st ->
  List.find (fun l' => String.eqb (_id (heap st l')) id) (lessons st) = None.
Proof.
  intros Hid. destruct (List.find _ (lessons st)) as [l'|] eqn:F; [|reflexivity].
  apply find_elem in F as [Hl' Heq]. apply String.eqb_eq in Heq.
  exfalso. apply Hid. rewrite <- Heq.
  now apply (list_elem_of_fmap_2 (fun l => _id (heap st l))).
Qed.

(** The updates of app.js, one candidate per lesson of the catalog. *)
Lemma App_updates (st : state) :
  omap put_of (App.updateRequests st)
  = omap (fun l => pair (_id (heap st l)) <$>
                     (if 0 <? count_id st (_id (heap st l))
                      then Some (space (heap st l) - count_id st (_id (heap st l)))
                      else None))
         (lessons st).
Proof.
  unfold App.updateRequests. apply omap_fmap_ext. intros l. cbv beta zeta.
  destruct (0 <? count_id st (_id (heap st l))); reflexivity.
Qed.

(** The updates of part_000, one candidate per distinct id of the cart. *)
Lemma Part0_updates (st : state) :
  omap put_of (Part0.updateRequests st)
  = omap (fun id => pair ((fun x : string => x) id) <$>
                      (space ∘ heap st <$>
                         List.find (fun l => String.eqb (_id (heap st l)) id)
                                   (lessons st)))
         (new_Set (cart_ids st)).
Proof.
  unfold Part0.updateRequests. apply omap_fmap_ext. intros id. cbv beta zeta.
  destruct (List.find _ (lessons st)); reflexivity.
Qed.

(** C1, as the code has it.  When the order is accepted and the ids of
    the catalog are distinct, an id of the cart that is the id of a
    lesson of the catalog gets exactly one update, and in part_000 that
    update carries the current space of that lesson; an id of the cart
    that the catalog no longer has gets none. *)
Theorem one_put_per_catalogued_cart_id (v : variant) (st : state) (net : network) :
  NoDup (catalog_ids st) -> order_accepted v st net ->
  forall id, id ∈ cart_ids st ->
    (forall l, l ∈ lessons st -> _id (heap st l) = id ->
       exists n, puts_for id (submitOrder v st net).2 = [(id, n)]
                 /\ (v = part_000 -> n = space (heap st l)))
    /\ (id ∉ catalog_ids st -> puts_for id (submitOrder v st net).2 = []).
Proof.
  intros Hnd Hacc id Hid. unfold puts_for.
  rewrite (submitOrder_puts v st net Hacc).
  destruct v; unfold updateRequests.
  - rewrite App_updates. split.
    + intros l Hl <-.
      rewrite (updates_of_key (fun l => _id (heap st l)) _ _ l Hnd Hl).
      apply count_id_pos in Hid. apply Z.ltb_lt in Hid as ->.
      eexists. split; [reflexivity | discriminate].
    + intros Hout. now apply updates_of_absent_key.
  - rewrite Part0_updates.
    destruct (new_Set_spec (cart_ids st)) as [Hset Hin].
    assert (Hmem : id ∈ new_Set (cart_ids st)) by now apply Hin.
    rewrite (updates_of_key (fun x => x) _ _ id) by (rewrite ?list_fmap_id; trivial).
    split.
    + intros l Hl <-. rewrite find_catalog_id by assumption.
      eexists. split; reflexivity.
    + intros Hout. now rewrite find_no_catalog_id.
Qed.

Lemma one_put_per_catalogued_cart_id_witness :
  NoDup (catalog_ids Shop.two_in_cart)
  /\ order_accepted part_000 Shop.two_in_cart (Shop.server [] Shop.fine)
  /\ "1" ∈ cart_ids Shop.two_in_cart
  /\ 0%nat ∈ lessons Shop.two_in_cart
  /\ puts_for "1" (Part0.submitOrder Shop.two_in_cart (Shop.server [] Shop.fine)).2
     = [("1", 3)].
Proof.
  assert (Hnd : NoDup (catalog_ids Shop.two_in_cart)).
  { apply (bool_decide_unpack _). vm_compute. reflexivity. }
  assert (Hacc : order_accepted part_000 Shop.two_in_cart (Shop.server [] Shop.fine)).
  { eexists. split; reflexivity. }
  assert (Hid : "1" ∈ cart_ids Shop.two_in_cart).
  { apply (bool_decide_unpack _). vm_compute. reflexivity. }
  assert (Hl : 0%nat ∈ lessons Shop.two_in_cart).
  { apply (bool_decide_unpack _). vm_compute. reflexivity. }
  split; [exact Hnd|]. split; [exact Hacc|]. split; [exact Hid|].
  split; [exact Hl|].
  destruct (proj1 (one_put_per_catalogued_cart_id part_000 Shop.two_in_cart
                     (Shop.server [] Shop.fine) Hnd Hacc "1" Hid)
                  0%nat Hl eq_refl) as (n & Hput & Hn).
  change (submitOrder part_000) with Part0.submitOrder in Hput.
  rewrite Hput, (Hn eq_refl). reflexivity.
Defined.

(** C1, as stated, fails once the catalog has been replaced: lesson 1 is
    in the cart, a search brings back lesson 2 only, and the order sends
    no update at all. *)
Lemma no_put_for_id_gone_from_catalog :
  ~ one_put_per_cart_id part_000 (Shop.searched [Shop.english])
                        (Shop.server [Shop.english] Shop.fine).
Proof.
  intros H. specialize (H 0%nat).
  assert (Hc : 0%nat ∈ cart (Shop.searched [Shop.english])).
  { apply (bool_decide_unpack _). vm_compute. reflexivity. }
  specialize (H Hc). vm_compute in H. discriminate.
Qed.

(** The scenario of the specification: lesson 1 has space 5 and is added
    twice.  part_000 sends space 3, the value [addToCart] left in the
    lesson; app.js subtracts the two entries from it once more and sends
    space 1. *)
Example happy_path_updates :
  space (heap Shop.two_in_cart 0%nat) = 3
  /\ puts_in (Part0.submitOrder Shop.two_in_cart (Shop.server [] Shop.fine)).2
     = [("1", 3)]
  /\ puts_in (App.submitOrder Shop.two_in_cart (Shop.server [] Shop.fine)).2
     = [("1", 1)].
Proof. repeat split. Qed.

(** ** submitOrder: the order sent *)

Lemma lines_for_count (st : state) (q : string -> Z) (id : string) (c : list loc) :
  Z.of_nat (length (filter (fun ln => line_id ln = id)
     ((fun item => OrderLine (_id (heap st item)) (topic (heap st item))
                             (price (heap st item)) (q (_id (heap st item))))
        <$> c)))
  = count_in (heap st) c id.
Proof.
  unfold count_in. induction c as [|x c IH]; [reflexivity|].
  rewrite fmap_cons, !filter_cons. simpl line_id.
  destruct (decide (_id (heap st x) = id)); simpl length; lia.
Qed.

(** The lines both files build, [this.cart.map] giving one per entry of
    the cart, in the order of the cart, with the id of the entry; so an
    id has as many lines as the cart has entries of it.  The quantity
    written in a line is the number of cart entries of its id in app.js,
    and 1 in part_000. *)
Theorem order_has_one_line_per_entry (v : variant) (st : state) :
  length (order_lessons (orderPayload v st)) = length (cart st)
  /\ (forall i c, cart st !! i = Some c ->
        exists ln, order_lessons (orderPayload v st) !! i = Some ln
                   /\ line_id ln = _id (heap st c)
                   /\ quantity ln = match v with
                                    | app_js => count_id st (_id (heap st c))
                                    | part_000 => 1
                                    end)
  /\ (forall id, Z.of_nat (length (lines_for id (orderPayload v st)))
                 = count_id st id).
Proof.
  destruct v; unfold orderPayload, App.orderPayload, Part0.orderPayload, lines_for;
    simpl order_lessons.
  all: split; [apply length_fmap|]; split.
  all: try (intros i c Hc; eexists; split;
            [rewrite list_lookup_fmap, Hc; reflexivity | split; reflexivity]).
  - intros id. apply (lines_for_count st (count_id st)).
  - intros id. apply (lines_for_count st (fun _ => 1)).
Qed.

Lemma order_has_one_line_per_entry_witness :
  cart Shop.aba_in_cart !! 2%nat = Some 0%nat
  /\ exists ln, order_lessons (App.orderPayload Shop.aba_in_cart) !! 2%nat = Some ln
                /\ line_id ln = "1" /\ quantity ln = 2.
Proof.
  assert (Hc : cart Shop.aba_in_cart !! 2%nat = Some 0%nat) by reflexivity.
  split; [exact Hc|].
  exact (proj1 (proj2 (order_has_one_line_per_entry app_js Shop.aba_in_cart))
               2%nat 0%nat Hc).
Defined.

(** C2, as stated, fails on the cart 1, 2, 1: the order of app.js has
    two lines for lesson 1, each with quantity 2. *)
Lemma two_lines_for_an_id_added_twice :
  ~ one_line_per_cart_id app_js Shop.aba_in_cart.
Proof.
  intros H. specialize (H 0%nat).
  assert (Hc : 0%nat ∈ cart Shop.aba_in_cart).
  { apply (bool_decide_unpack _). vm_compute. reflexivity. }
  destruct (H Hc) as (ln & Hln & _). vm_compute in Hln. discriminate.
Qed.

Example orders_for_cart_1_2_1 :
  (fun ln => (line_id ln, quantity ln)) <$> order_lessons (App.orderPayload Shop.aba_in_cart)
  = [("1", 2); ("2", 1); ("1", 2)]
  /\ (fun ln => (line_id ln, quantity ln)) <$> order_lessons (Part0.orderPayload Shop.aba_in_cart)
     = [("1", 1); ("2", 1); ("1", 1)].
Proof. split; reflexivity. Qed.

(** C2 (app.js).  With lessons 1, 2, 1 in the cart, two entries are of
    lesson 1, and the order of app.js has three lines: lesson 1 with
    quantity 2, lesson 2 with quantity 1, and lesson 1 with quantity 2
    again.  Lesson 1 has two lines where the claim has one, and the
    order asks for four units of it where the cart holds two; part_000
    writes quantity 1 in each of its three lines. *)
Theorem App_order_repeats_counted_line :
  cart_ids Shop.aba_in_cart = ["1"; "2"; "1"]
  /\ count_id Shop.aba_in_cart "1" = 2
  /\ (fun ln => (line_id ln, quantity ln))
       <$> order_lessons (App.orderPayload Shop.aba_in_cart)
     = [("1", 2); ("2", 1); ("1", 2)]
  /\ length (lines_for "1" (App.orderPayload Shop.aba_in_cart)) = 2%nat
  /\ ordered_units "1" (App.orderPayload Shop.aba_in_cart) = 4
  /\ ordered_units "1" (Part0.orderPayload Shop.aba_in_cart) = 2.
Proof. repeat split. Qed.

(** ** submitOrder: failure and success *)

(** C4.  When the order fails, by a network error or an error status,
    [submitOrder] ends in the state it started from but for the order
    message, which is the failure message: same cart, same objects and
    so same spaces, same catalog, same form.  No update is sent. *)
Theorem failed_order_changes_nothing (v : variant) (st : state) (net : network) :
  order_failed v st net ->
  let st' := (submitOrder v st net).1 in
  cart st' = cart st /\ heap st' = heap st /\ lessons st' = lessons st
  /\ checkout st' = checkout st
  /\ orderMessage st' = Some (failure v)
  /\ puts_in (submitOrder v st net).2 = [].
Proof.
  intros Hfail st'. subst st'.
  destruct v; unfold order_failed in Hfail;
    cbn [submitOrder orderPayload failure] in *;
    [unfold App.submitOrder | unfold Part0.submitOrder];
    destruct Hfail as [Hrej | (resp & Hresp & Hok)];
    first [rewrite Hrej | rewrite Hresp, Hok]; simpl; repeat split.
Qed.

Lemma failed_order_changes_nothing_witness :
  order_failed app_js Shop.two_in_cart Shop.refusing
  /\ cart (App.submitOrder Shop.two_in_cart Shop.refusing).1 = [0; 0]%nat
  /\ orderMessage (App.submitOrder Shop.two_in_cart Shop.refusing).1
     = Some App.failure
  /\ puts_in (App.submitOrder Shop.two_in_cart Shop.refusing).2 = [].
Proof.
  assert (Hf : order_failed app_js Shop.two_in_cart Shop.refusing).
  { right. eexists. split; reflexivity. }
  destruct (failed_order_changes_nothing app_js Shop.two_in_cart Shop.refusing Hf)
    as (Hcart & _ & _ & _ & Hmsg & Hputs).
  split; [exact Hf|]. split; [exact Hcart|]. split; [exact Hmsg | exact Hputs].
Defined.

Lemma load_frame (st : state) (net : network) (r : request) (log : string) :
  cart (load st net r log).1 = cart st
  /\ checkout (load st net r log).1 = checkout st
  /\ orderMessage (load st net r log).1 = orderMessage st.
Proof.
  unfold load. destruct (net r) as [| |resp]; try (repeat split; fail).
  destruct (ok resp); [|repeat split].
  unfold replace_lessons. destruct (alloc _ _ _) as [[h n] ls]. repeat split.
Qed.

Lemma updateRequests_are_puts (v : variant) (st : state) (r : option request) :
  r ∈ updateRequests v st -> r = None \/ exists i n, r = Some (PUT_lessons i n).
Proof.
  destruct v; unfold updateRequests, App.updateRequests, Part0.updateRequests;
    intros H; apply list_elem_of_fmap in H as (x & -> & _).
  - destruct (0 <? _); eauto.
  - destruct (List.find _ _); eauto.
Qed.

(** [Promise.all] over promises that are all fulfilled is fulfilled. *)
Lemma promise_all_fulfilled {A} (ps : list (promise A)) :
  Forall (fun p => exists x, p = Fulfilled x) ps ->
  exists xs, promise_all ps = Fulfilled xs.
Proof.
  intros H. unfold promise_all.
  assert (existsb is_rejected ps = false /\ existsb is_pending ps = false) as [-> ->].
  { induction H as [|p ps [x ->] _ [IH1 IH2]]; [split; reflexivity|].
    simpl. now rewrite IH1, IH2. }
  eauto.
Qed.

(** C5, as the code has it.  When the order is accepted and every update
    is answered, whatever the status of the answers, [submitOrder] ends
    with an empty cart, an empty form and the success message. *)
Theorem answered_updates_commit (v : variant) (st : state) (net : network) :
  order_accepted v st net ->
  (forall id n, exists resp, net (PUT_lessons id n) = Fulfilled resp) ->
  committed v (submitOrder v st net).1.
Proof.
  intros (resp & Hpost & Hok) Hput.
  assert (Hall : exists xs,
            promise_all (promise_of net <$> updateRequests v st) = Fulfilled xs).
  { apply promise_all_fulfilled, Forall_fmap, Forall_forall.
    intros r Hr. apply updateRequests_are_puts in Hr as [->|(i & n & ->)]; simpl.
    - eauto.
    - destruct (Hput i n) as [x ->]. eauto. }
  destruct Hall as [xs Hall].
  destruct v; unfold submitOrder, updateRequests, orderPayload, committed in *.
  - unfold App.submitOrder. rewrite Hpost, Hok. simpl negb. cbv iota.
    change (App.updateRequests (set_orderMessage st _)) with (App.updateRequests st).
    rewrite Hall. unfold App.finalize, fetchLessons.
    match goal with |- context [load ?s net ?r ?g] =>
      destruct (load_frame s net r g) as (H1 & H2 & H3);
      destruct (load s net r g) as [st' tr'] end.
    simpl in *. now rewrite H1, H2, H3.
  - unfold Part0.submitOrder. rewrite Hpost, Hok. simpl negb. cbv iota.
    change (Part0.updateRequests (set_orderMessage st _)) with (Part0.updateRequests st).
    rewrite Hall. repeat split.
Qed.

Lemma answered_updates_commit_witness :
  order_accepted app_js Shop.two_in_cart (Shop.server [] Shop.error_status)
  /\ (forall id n, exists resp,
        Shop.server [] Shop.error_status (PUT_lessons id n) = Fulfilled resp)
  /\ committed app_js
       (App.submitOrder Shop.two_in_cart (Shop.server [] Shop.error_status)).1.
Proof.
  assert (Hacc : order_accepted app_js Shop.two_in_cart
                                (Shop.server [] Shop.error_status)).
  { eexists. split; reflexivity. }
  assert (Hput : forall id n, exists resp,
             Shop.server [] Shop.error_status (PUT_lessons id n) = Fulfilled resp).
  { intros id n. eexists. reflexivity. }
  split; [exact Hacc|]. split; [exact Hput|].
  exact (answered_updates_commit app_js Shop.two_in_cart
           (Shop.server [] Shop.error_status) Hacc Hput).
Defined.

(** C5, as stated, fails when an update is rejected by the network: the
    promise settles, [Promise.all] rejects, and the [catch] block leaves
    the cart as it was under the failure message. *)
Lemma rejected_update_does_not_commit :
  ~ commits_when_settled part_000 Shop.two_in_cart (Shop.server [] Rejected).
Proof.
  intros H.
  assert (Hacc : exists resp,
            Shop.server [] Rejected (POST_orders (orderPayload part_000 Shop.two_in_cart))
            = Fulfilled resp /\ ok resp = true).
  { eexists. split; reflexivity. }
  assert (Hset : forall id n,
            settled (Shop.server [] (@Rejected response) (PUT_lessons id n))).
  { intros id n. discriminate. }
  destruct (H Hacc Hset) as [Hcart _]. vm_compute in Hcart. discriminate.
Qed.

Example rejected_update_outcome :
  let st := (Part0.submitOrder Shop.two_in_cart (Shop.server [] Rejected)).1 in
  cart st = [0; 0]%nat /\ orderMessage st = Some Part0.failure
  /\ let st := (App.submitOrder Shop.two_in_cart (Shop.server [] Rejected)).1 in
     cart st = [0; 0]%nat /\ orderMessage st = Some App.failure.
Proof. repeat split. Qed.

(** The end of that scenario in both files: the cart and the form are
    empty, the cart view is closed and the success message is shown;
    app.js has sent the refresh of the catalog, part_000 has set the
    timer that clears the message. *)
Example happy_path_end :
  (let '(st, tr) := App.submitOrder Shop.two_in_cart (Shop.server [] Shop.fine) in
   cart st = [] /\ checkout st = Checkout "" "" /\ showCart st = false
   /\ orderMessage st = Some App.success /\ last tr = Some (Fetch GET_lessons))
  /\ (let '(st, tr) := Part0.submitOrder Shop.two_in_cart (Shop.server [] Shop.fine) in
      cart st = [] /\ checkout st = Checkout "" "" /\ showCart st = false
      /\ orderMessage st = Some Part0.success /\ last tr = Some (SetTimeout 3000)
      /\ orderMessage (Part0.timeout st) = None).
Proof. vm_compute. repeat split. Qed.

(** * Further properties of the two files *)

(** ** sortedLessons: the result as a sorted list *)

Lemma js_lt_irrefl (x : jsval) : js_lt x x = false.
Proof.
  destruct (js_lt x x) eqn:E; [|reflexivity].
  pose proof (js_lt_asym x x E). congruence.
Qed.

(** "Not greater" is transitive on values of one type. *)
Lemma js_le_trans (x y z : jsval) :
  same_kind x y -> same_kind y z ->
  js_lt y x = false -> js_lt z y = false -> js_lt z x = false.
Proof.
  intros Kxy Kyz Hyx Hzy.
  destruct (js_lt z x) eqn:Hzx; [exfalso|reflexivity].
  destruct (js_lt x y) eqn:Hxy.
  - pose proof (js_lt_trans z x y Hzx Hxy). congruence.
  - assert (x = y) by now apply js_lt_trichotomy.
    subst. congruence.
Qed.

Lemma before_in_order (h : loc -> lesson) (field dir : string) (a b : loc) :
  before (fun a b => compareFn field dir (h a) (h b)) a b
  <-> in_order h field dir a b.
Proof.
  unfold before, in_order, sort_key.
  destruct (String.eqb_spec dir "asc") as [->|Hd].
  - apply compareFn_asc.
  - now apply compareFn_desc.
Qed.

#[local] Instance in_order_trans (h : loc -> lesson) (field dir : string) :
  Transitive (in_order h field dir).
Proof.
  intros a b c. unfold in_order. destruct (String.eqb dir "asc"); intros H1 H2.
  - eapply (js_le_trans _ (sort_key h field b)); eauto using sort_key_same_kind.
  - eapply (js_le_trans _ (sort_key h field b)); eauto using sort_key_same_kind.
Qed.

Lemma Sorted_weaken {A} (R S : A -> A -> Prop) (l : list A) :
  (forall a b, R a b -> S a b) -> Sorted R l -> Sorted S l.
Proof.
  intros HRS. induction 1 as [|a l _ IH Hd]; constructor; [exact IH|].
  destruct Hd; constructor. now apply HRS.
Qed.

(** X1.  In both files [sortedLessons] returns the lessons of the
    catalog, each once: a permutation of [this.lessons]; and the catalog
    it leaves behind (reordered by app.js) is one too. *)
Theorem sortedLessons_permutes (v : variant) (st : state) :
  (sortedLessons v st).1 ≡ₚ lessons st
  /\ lessons (sortedLessons v st).2 ≡ₚ lessons st.
Proof.
  destruct v; simpl; split; try reflexivity; apply array_sort_Permutation.
Qed.

(** X2.  The list [sortedLessons] returns is in order: of any two of its
    lessons, the earlier has a key (the property named by [sortBy],
    lower-cased when a string) that is not greater than the key of the
    later when [sortOrder] is 'asc', and not smaller for any other
    [sortOrder]. *)
Theorem sortedLessons_in_order (v : variant) (st : state) :
  StronglySorted (in_order (heap st) (sortBy st) (sortOrder st))
                 (sortedLessons v st).1.
Proof.
  apply Sorted_StronglySorted; [apply _|].
  apply (Sorted_weaken (before (compareLessons st))).
  - intros a b. apply before_in_order.
  - destruct v; apply array_sort_Sorted; intros a b; apply compareFn_total.
Qed.

Lemma compareFn_pos_keys (field dir : string) (a b : lesson) :
  0 < compareFn field dir a b ->
  fold_case (get_prop a field) <> fold_case (get_prop b field).
Proof.
  unfold compareFn, js_gt. intros H Heq. rewrite Heq in H.
  rewrite js_lt_irrefl in H. destruct (String.eqb dir "asc"); lia.
Qed.

Lemma sort_insert_filter {A} (cmp : A -> A -> Z) (P : A -> Prop)
      `{forall x, Decision (P x)} (x : A) (l : list A) :
  (forall y, 0 < cmp x y -> P x -> ~ P y) ->
  filter P (sort_insert cmp x l) = filter P (x :: l).
Proof.
  intros Hcmp. induction l as [|y l IH]; [reflexivity|]. simpl.
  destruct (Z.leb_spec (cmp x y) 0) as [_|Hgt]; [reflexivity|].
  rewrite filter_cons, IH, !filter_cons.
  destruct (decide (P y)) as [Py|]; [|reflexivity].
  destruct (decide (P x)) as [Px|]; [|reflexivity].
  exfalso. exact (Hcmp y Hgt Px Py).
Qed.

(** X3.  The sort is stable: the lessons that share a key come out of
    [sortedLessons] in the order they have in the catalog, in either
    direction. *)
Theorem sortedLessons_stable (v : variant) (st : state) (k : jsval) :
  filter (fun a => sort_key (heap st) (sortBy st) a = k) (sortedLessons v st).1
  = filter (fun a => sort_key (heap st) (sortBy st) a = k) (lessons st).
Proof.
  assert (H : forall l,
    filter (fun a => sort_key (heap st) (sortBy st) a = k)
           (array_sort (compareLessons st) l)
    = filter (fun a => sort_key (heap st) (sortBy st) a = k) l).
  { induction l as [|x l IH]; [reflexivity|]. simpl array_sort.
    rewrite sort_insert_filter.
    - now rewrite !filter_cons, IH.
    - intros y Hgt Hx Hy. apply compareFn_pos_keys in Hgt.
      unfold sort_key in Hx, Hy. congruence. }
  destruct v; apply H.
Qed.

Lemma get_prop_unknown (a : lesson) (field : string) :
  field ∉ known_fields -> get_prop a field = JUndefined.
Proof.
  intros Hf. unfold get_prop.
  repeat match goal with
  | |- context [String.eqb field ?s] =>
      destruct (String.eqb_spec field s) as [->|_];
      [exfalso; apply Hf; unfold known_fields;
       apply (bool_decide_unpack _); vm_compute; reflexivity|]
  end.
  reflexivity.
Qed.

(** X4.  With a [sortBy] that is not a property of lessons, every
    comparison is between [undefined] values and gives 0: the list
    [sortedLessons] returns is the catalog in its own order, whatever
    the direction. *)
Theorem sortedLessons_unknown_field (v : variant) (st : state) :
  sortBy st ∉ known_fields ->
  (sortedLessons v st).1 = lessons st.
Proof.
  intros Hf.
  assert (H : Sorted (before (compareLessons st)) (lessons st)).
  { assert (Hall : forall a b, before (compareLessons st) a b).
    { intros a b. unfold before, compareLessons, compareFn, js_gt.
      rewrite !get_prop_unknown by assumption. simpl.
      destruct (String.eqb _ _); lia. }
    induction (lessons st) as [|a l IH]; constructor; [exact IH|].
    destruct l; constructor. apply Hall. }
  destruct v; simpl; now apply array_sort_fixed.
Qed.

Lemma sortedLessons_unknown_field_witness :
  ("teacher" ∉ known_fields)
  /\ (sortedLessons app_js
        (State (heap Shop.loaded) 3%nat [2; 0; 1]%nat [] false "teacher" "desc" ""
               (Checkout "" "") None)).1 = [2; 0; 1]%nat.
Proof.
  assert (Hf : "teacher" ∉ known_fields).
  { apply (bool_decide_unpack _). vm_compute. reflexivity. }
  split; [exact Hf|].
  exact (sortedLessons_unknown_field app_js
           (State (heap Shop.loaded) 3%nat [2; 0; 1]%nat [] false "teacher" "desc" ""
                  (Checkout "" "") None) Hf).
Defined.

(** X5.  Reading [sortedLessons] of app.js a second time changes nothing
    more: the catalog it has reordered is already in order, so the
    second read returns the same list and leaves the same state; and
    part_000 run on that state returns that list as well. *)
Theorem App_sortedLessons_settles (st : state) :
  App.sortedLessons (App.sortedLessons st).2 = App.sortedLessons st
  /\ (Part0.sortedLessons (App.sortedLessons st).2).1 = (App.sortedLessons st).1.
Proof.
  unfold App.sortedLessons, Part0.sortedLessons. simpl.
  change (compareLessons (set_lessons st ?l)) with (compareLessons st).
  rewrite array_sort_idempotent by (intros a b; apply compareFn_total).
  split; reflexivity.
Qed.

(** X6.  The comparator is a consistent three-way comparison: exchanging
    the two lessons negates its result, in any direction, and so does
    going from 'asc' to any other direction. *)
Theorem compareFn_antisymmetric (field dir : string) (a b : lesson) :
  compareFn field dir b a = - (compareFn field dir a b)
  /\ (dir <> "asc" -> compareFn field dir a b = - (compareFn field "asc" a b)).
Proof.
  unfold compareFn, js_gt. split.
  - destruct (js_lt (fold_case (get_prop a field)) (fold_case (get_prop b field))) eqn:L;
    destruct (js_lt (fold_case (get_prop b field)) (fold_case (get_prop a field))) eqn:G;
    try (apply js_lt_asym in L; congruence);
    destruct (String.eqb dir "asc"); reflexivity.
  - intros Hd. destruct (String.eqb_spec dir "asc") as [|_]; [contradiction|].
    simpl. lia.
Qed.

Lemma compareFn_antisymmetric_witness :
  "desc" <> "asc"
  /\ compareFn "subject" "desc" Shop.maths Shop.english
     = - (compareFn "subject" "asc" Shop.maths Shop.english).
Proof.
  assert (Hd : "desc" <> "asc") by discriminate.
  split; [exact Hd|].
  exact (proj2 (compareFn_antisymmetric "subject" "desc" Shop.maths Shop.english) Hd).
Defined.

(** ** removeFromCart at its edges *)

Lemma find_same_id_none (st : state) (item : loc) :
  _id (heap st item) ∉ catalog_ids st ->
  List.find (same_id st item) (lessons st) = None.
Proof. intros H. exact (find_no_catalog_id st _ H). Qed.

Lemma find_same_id_some (st : state) (item l : loc) :
  NoDup (catalog_ids st) -> l ∈ lessons st ->
  _id (heap st l) = _id (heap st item) ->
  List.find (same_id st item) (lessons st) = Some l.
Proof.
  intros Hnd Hl Hid. unfold same_id. rewrite <- Hid.
  exact (find_catalog_id st l Hnd Hl).
Qed.

(** X7.  When no lesson of the catalog has the id of the entry (the
    catalog was replaced since the entry was added), [removeFromCart]
    still takes the entry out of the cart, and gives no space back: no
    object and no part of the catalog changes.  Both files. *)
Theorem removeFromCart_unknown_item (v : variant) (st : state) (item : loc)
        (index : Z) :
  _id (heap st item) ∉ catalog_ids st ->
  heap (removeFromCart v st item index) = heap st
  /\ lessons (removeFromCart v st item index) = lessons st
  /\ cart (removeFromCart v st item index) = splice1 (cart st) index.
Proof.
  intros Hout.
  rewrite removeFromCart_heap, removeFromCart_lessons, removeFromCart_cart.
  unfold restore. now rewrite find_same_id_none.
Qed.

Lemma removeFromCart_unknown_item_witness :
  (_id (heap (Shop.searched [Shop.english]) 0%nat)
     ∉ catalog_ids (Shop.searched [Shop.english]))
  /\ cart (removeFromCart part_000 (Shop.searched [Shop.english]) 0%nat 0) = []
  /\ space (heap (removeFromCart part_000 (Shop.searched [Shop.english]) 0%nat 0) 3%nat)
     = 3.
Proof.
  assert (Hout : _id (heap (Shop.searched [Shop.english]) 0%nat)
                   ∉ catalog_ids (Shop.searched [Shop.english])).
  { apply (bool_decide_unpack _). vm_compute. reflexivity. }
  destruct (removeFromCart_unknown_item part_000 (Shop.searched [Shop.english])
              0%nat 0 Hout) as (Hh & _ & Hc).
  split; [exact Hout|]. split.
  - rewrite Hc. reflexivity.
  - rewrite Hh. reflexivity.
Defined.

Lemma splice1_beyond {A} (l : list A) (index : Z) :
  Z.of_nat (length l) <= index -> splice1 l index = l.
Proof.
  intros H. unfold splice1.
  destruct (Z.ltb_spec index 0); [lia|].
  rewrite delete_take_drop, take_ge, drop_ge by lia. apply app_nil_r.
Qed.

(** X8.  An index at or past the end of the cart removes nothing
    ([splice] deletes nothing there), but the first part of
    [removeFromCart] has already run: the cart is unchanged while the
    lesson of the catalog with the id of [item] has one more space. *)
Theorem removeFromCart_index_past_end (v : variant) (st : state) (item : loc)
        (index : Z) (l : loc) :
  Z.of_nat (length (cart st)) <= index ->
  NoDup (catalog_ids st) -> l ∈ lessons st ->
  _id (heap st l) = _id (heap st item) ->
  cart (removeFromCart v st item index) = cart st
  /\ space (heap (removeFromCart v st item index) l) = space (heap st l) + 1.
Proof.
  intros Hidx Hnd Hl Hid.
  rewrite removeFromCart_cart, removeFromCart_heap.
  split; [now apply splice1_beyond|].
  rewrite held_restore by assumption.
  now rewrite decide_True by congruence.
Qed.

Lemma removeFromCart_index_past_end_witness :
  Z.of_nat (length (cart Shop.two_in_cart)) <= 2
  /\ NoDup (catalog_ids Shop.two_in_cart)
  /\ 0%nat ∈ lessons Shop.two_in_cart
  /\ cart (removeFromCart app_js Shop.two_in_cart 0%nat 2) = [0; 0]%nat
  /\ space (heap (removeFromCart app_js Shop.two_in_cart 0%nat 2) 0%nat) = 3 + 1.
Proof.
  assert (Hidx : Z.of_nat (length (cart Shop.two_in_cart)) <= 2) by (vm_compute; discriminate).
  assert (Hnd : NoDup (catalog_ids Shop.two_in_cart)).
  { apply (bool_decide_unpack _). vm_compute. reflexivity. }
  assert (Hl : 0%nat ∈ lessons Shop.two_in_cart).
  { apply (bool_decide_unpack _). vm_compute. reflexivity. }
  split; [exact Hidx|]. split; [exact Hnd|]. split; [exact Hl|].
  exact (removeFromCart_index_past_end app_js Shop.two_in_cart 0%nat 2 0%nat
           Hidx Hnd Hl eq_refl).
Defined.

(** X9.  In part_000 [removeFromCart] closes the cart view exactly when
    the cart is empty after the removal, and leaves [showCart] as it was
    otherwise; app.js never touches [showCart] there. *)
Theorem removeFromCart_showCart (st : state) (item : loc) (index : Z) :
  showCart (Part0.removeFromCart st item index)
  = match cart (Part0.removeFromCart st item index) with
    | [] => false
    | _ :: _ => showCart st
    end
  /\ showCart (App.removeFromCart st item index) = showCart st.
Proof.
  split.
  - unfold Part0.removeFromCart.
    set (st1 := match List.find _ _ with Some l => give_back st l | None => st end).
    assert (Hs : showCart st1 = showCart st).
    { subst st1. now destruct (List.find _ _). }
    rewrite <- Hs. clearbody st1.
    change (cart (set_cart st1 ?c)) with c.
    destruct (splice1 (cart st1) index); reflexivity.
  - unfold App.removeFromCart.
    destruct (negb _); [destruct (lessons st !! _)|]; simpl;
      now destruct (_ =? _)%nat.
Qed.

(** X10.  Adding a lesson of the catalog that has space and then
    removing the entry just made, at its position, brings back the cart
    and every object as they were; the catalog has not moved. *)
Theorem add_then_remove (v : variant) (st : state) (lesson : loc) :
  0 < space (heap st lesson) ->
  NoDup (catalog_ids st) -> lesson ∈ lessons st ->
  let st' := removeFromCart v (addToCart st lesson) lesson
                            (Z.of_nat (length (cart st))) in
  cart st' = cart st /\ lessons st' = lessons st
  /\ forall l, heap st' l = heap st l.
Proof.
  intros Hpos Hnd Hl st'. subst st'.
  destruct (addToCart_step st lesson Hpos) as (Hcart & Hspace & Hother).
  rewrite removeFromCart_cart, removeFromCart_lessons, removeFromCart_heap,
    addToCart_lessons, Hcart.
  split; [|split; [reflexivity|]].
  - rewrite (splice1_in_range _ _ lesson) by
      (try lia; rewrite Nat2Z.id; now apply list_lookup_middle).
    rewrite Nat2Z.id, delete_middle. apply app_nil_r.
  - unfold restore.
    rewrite (find_same_id_some (addToCart st lesson) lesson lesson);
      [| | now rewrite addToCart_lessons | reflexivity].
    + intros l. simpl. destruct (decide (lesson = l)) as [<-|Hne].
      * rewrite fn_lookup_insert, Hspace.
        unfold addToCart. apply Z.ltb_lt in Hpos as ->. simpl.
        rewrite fn_lookup_insert. unfold set_space. simpl.
        destruct (heap st lesson). simpl. f_equal. lia.
      * rewrite fn_lookup_insert_ne by assumption. now apply Hother.
    + replace (catalog_ids (addToCart st lesson)) with (catalog_ids st); [exact Hnd|].
      symmetry. apply (step_catalog_ids app_js st (Add lesson)).
Qed.

Lemma add_then_remove_witness :
  0 < space (heap Shop.loaded 1%nat)
  /\ NoDup (catalog_ids Shop.loaded) /\ 1%nat ∈ lessons Shop.loaded
  /\ cart (removeFromCart app_js (addToCart Shop.loaded 1%nat) 1%nat
             (Z.of_nat (length (cart Shop.loaded)))) = cart Shop.loaded.
Proof.
  assert (Hpos : 0 < space (heap Shop.loaded 1%nat)) by reflexivity.
  assert (Hnd : NoDup (catalog_ids Shop.loaded)).
  { apply (bool_decide_unpack _). vm_compute. reflexivity. }
  assert (Hl : 1%nat ∈ lessons Shop.loaded).
  { apply (bool_decide_unpack _). vm_compute. reflexivity. }
  split; [exact Hpos|]. split; [exact Hnd|]. split; [exact Hl|].
  exact (proj1 (add_then_remove app_js Shop.loaded 1%nat Hpos Hnd Hl)).
Defined.

(** ** The units an order asks for *)

Lemma units_of_lines (st : state) (q : string -> Z) (id : string) (c : list loc) :
  forall a,
    foldl (fun units ln => units + quantity ln) a
      (filter (fun ln => line_id ln = id)
         ((fun item => OrderLine (_id (heap st item)) (topic (heap st item))
                                 (price (heap st item)) (q (_id (heap st item))))
            <$> c))
    = a + q id * count_in (heap st) c id.
Proof.
  unfold count_in. induction c as [|x c IH]; intros a; [simpl; lia|].
  rewrite fmap_cons, !filter_cons. simpl line_id.
  destruct (decide (_id (heap st x) = id)) as [<-|Hne].
  - simpl foldl. rewrite IH. simpl length. lia.
  - apply IH.
Qed.

(** X28.  Added up over the lines of a lesson, the quantities of the
    order of part_000 are the number of entries the cart has of that
    lesson; those of the order of app.js are the square of that number,
    each of the n lines of the lesson carrying quantity n. *)
Theorem units_ordered (st : state) (id : string) :
  ordered_units id (Part0.orderPayload st) = count_id st id
  /\ ordered_units id (App.orderPayload st) = count_id st id * count_id st id.
Proof.
  unfold ordered_units, lines_for, Part0.orderPayload, App.orderPayload.
  simpl order_lessons. split.
  - rewrite (units_of_lines st (fun _ => 1)).
    change (count_in (heap st) (cart st) id) with (count_id st id). lia.
  - rewrite (units_of_lines st (count_id st)).
    change (count_in (heap st) (cart st) id) with (count_id st id). lia.
Qed.

(** ** The checkout form *)

Lemma test_plus_spec (cls : ascii -> bool) (s : string) :
  test_plus cls s = true
  <-> s <> EmptyString
      /\ Forall (fun c => cls c = true) (String.list_ascii_of_string s).
Proof.
  induction s as [|c s IH]; simpl.
  - split; [discriminate | intros [H _]; congruence].
  - rewrite andb_true_iff. destruct s as [|c' s].
    + simpl. split.
      * intros [Hc _]. split; [discriminate | repeat constructor; exact Hc].
      * intros [_ H]. inversion H. tauto.
    + rewrite IH. split.
      * intros [Hc [_ H]]. split; [discriminate | now constructor].
      * intros [_ H]. inversion H; subst. repeat split; trivial. discriminate.
Qed.

(** X13.  The name is valid exactly when it is not empty and each of its
    characters is a letter a-z or A-Z or a whitespace character; the
    phone is valid exactly when it is not empty and each of its
    characters is a digit 0-9. *)
Theorem validators_by_character (st : state) :
  (isNameValid st = true
   <-> name (checkout st) <> ""
       /\ Forall (fun c => is_letter c = true \/ is_whitespace c = true)
                 (String.list_ascii_of_string (name (checkout st))))
  /\ (isPhoneValid st = true
      <-> phone (checkout st) <> ""
          /\ Forall (fun c => is_digit c = true)
                    (String.list_ascii_of_string (phone (checkout st)))).
Proof.
  unfold isNameValid, isPhoneValid, name_pattern, phone_pattern.
  rewrite !test_plus_spec. split; [|reflexivity].
  split; intros [Hne H]; (split; [exact Hne|]);
    eapply Forall_impl; try exact H; intros c; simpl;
    rewrite orb_true_iff; tauto.
Qed.

Lemma digit_not_name_char (c : ascii) :
  is_digit c = true -> is_letter c || is_whitespace c = false.
Proof.
  unfold is_digit, is_letter, is_whitespace.
  generalize (nat_of_ascii c). intros n.
  rewrite andb_true_iff, !Nat.leb_le. intros [H1 H2].
  repeat match goal with
  | |- context [(?a <=? ?b)%nat] => destruct (Nat.leb_spec a b)
  | |- context [(?a =? ?b)%nat] => destruct (Nat.eqb_spec a b)
  end; simpl; try reflexivity; lia.
Qed.

(** X14.  No text passes both validations: what is a valid name is not a
    valid phone.  And a text with a character outside the class, or no
    character at all, passes neither. *)
Theorem name_and_phone_exclusive (s : string) :
  (name_pattern s = true -> phone_pattern s = false)
  /\ name_pattern "" = false /\ phone_pattern "" = false.
Proof.
  split; [|split; reflexivity].
  unfold name_pattern, phone_pattern. destruct s as [|c s]; [discriminate|].
  simpl. intros H. apply andb_true_iff in H as [Hc _].
  destruct (is_digit c) eqn:D; [|reflexivity].
  apply digit_not_name_char in D. congruence.
Qed.

Lemma name_and_phone_exclusive_witness :
  name_pattern "Jane Doe" = true /\ phone_pattern "Jane Doe" = false.
Proof.
  assert (H : name_pattern "Jane Doe" = true) by reflexivity.
  split; [exact H|].
  exact (proj1 (name_and_phone_exclusive "Jane Doe") H).
Defined.

(** The two patterns on a few texts. *)
Example validation_examples :
  name_pattern "Jane Doe" = true /\ name_pattern "Jane2" = false
  /\ phone_pattern "07123456789" = true /\ phone_pattern "07-123" = false.
Proof. repeat split. Qed.

(** ** Loading the catalog *)

Lemma alloc_spec (js : list lesson) :
  forall h n,
    (alloc h n js).1.2 = (n + length js)%nat
    /\ (alloc h n js).2 = seq n (length js)
    /\ (forall l, (l < n)%nat -> (alloc h n js).1.1 l = h l)
    /\ (alloc h n js).1.1 <$> (alloc h n js).2 = js.
Proof.
  induction js as [|o js IH]; intros h n; simpl.
  - repeat split; lia.
  - specialize (IH (<[n := o]> h) (S n)).
    destruct (alloc (<[n := o]> h) (S n) js) as [[h' n'] ls].
    simpl in *. destruct IH as (Hn & Hls & Hframe & Hread).
    repeat split.
    + lia.
    + now rewrite Hls.
    + intros l Hl. rewrite Hframe by lia. apply fn_lookup_insert_ne. lia.
    + f_equal; [|exact Hread].
      rewrite Hframe by lia. apply fn_lookup_insert.
Qed.

Lemma replace_lessons_spec (st : state) (js : list lesson) :
  let st' := replace_lessons st js in
  next st' = (next st + length js)%nat
  /\ lessons st' = seq (next st) (length js)
  /\ (forall l, allocated st l -> heap st' l = heap st l)
  /\ heap st' <$> lessons st' = js
  /\ cart st' = cart st /\ checkout st' = checkout st
  /\ showCart st' = showCart st /\ sortBy st' = sortBy st
  /\ sortOrder st' = sortOrder st /\ searchQuery st' = searchQuery st
  /\ orderMessage st' = orderMessage st.
Proof.
  unfold replace_lessons.
  pose proof (alloc_spec js (heap st) (next st)) as H.
  destruct (alloc (heap st) (next st) js) as [[h n] ls]. simpl in *.
  destruct H as (H1 & H2 & H3 & H4). repeat split; trivial.
Qed.

(** What [load] can do to a state: nothing, or replace the catalog by
    the list of an answer with a success status. *)
Lemma load_cases (st : state) (net : network) (r : request) (log : string) :
  (answered_ok net r /\ exists resp, net r = Fulfilled resp
       /\ (load st net r log).1 = replace_lessons st (json resp))
  \/ (~ answered_ok net r /\ (load st net r log).1 = st).
Proof.
  unfold load, answered_ok. destruct (net r) as [| |resp] eqn:E.
  - right. split; [intros (x & Hx & _); discriminate | reflexivity].
  - right. split; [intros (x & Hx & _); discriminate | reflexivity].
  - destruct (ok resp) eqn:O.
    + left. split; eauto.
    + right. split; [|reflexivity].
      intros (x & [= <-] & Hx). congruence.
Qed.

(** X15.  A load that fails is swallowed.  When the request of
    [fetchLessons] is rejected, never answered, or answered with an
    error status, the state is left exactly as it was; in the same
    cases [handleSearch] has only cleared the order message. *)
Theorem failed_load_is_swallowed (st : state) (net : network) :
  (~ answered_ok net GET_lessons -> (fetchLessons st net).1 = st)
  /\ (~ answered_ok net (search_request st) ->
      (handleSearch st net).1 = set_orderMessage st None).
Proof.
  split; intros Hno.
  - unfold fetchLessons. destruct (load_cases st net GET_lessons "Error fetching lessons:")
      as [[Hok _]|[_ H]]; [contradiction | exact H].
  - unfold handleSearch, search_request, fetchLessons in *.
    change (searchQuery (set_orderMessage st None)) with (searchQuery st).
    destruct (0 <? String.length (searchQuery st))%nat;
      match goal with |- (load ?s net ?r ?g).1 = _ =>
        destruct (load_cases s net r g) as [[Hok _]|[_ H]];
        [contradiction | exact H] end.
Qed.

Lemma failed_load_is_swallowed_witness :
  ~ answered_ok (fun _ => Rejected) GET_lessons
  /\ (fetchLessons Shop.two_in_cart (fun _ => Rejected)).1 = Shop.two_in_cart.
Proof.
  assert (Hno : ~ answered_ok (fun _ => Rejected) GET_lessons).
  { intros (x & Hx & _). discriminate. }
  split; [exact Hno|].
  exact (proj1 (failed_load_is_swallowed Shop.two_in_cart (fun _ => Rejected)) Hno).
Defined.

(** X16.  A load that succeeds stores the list of the answer: read
    through the new catalog, the lessons are those of the answer, in
    its order.  The new catalog has no lesson twice and none that
    existed before, and every object that existed is unchanged, so what
    the cart shows, entry by entry, is what it showed as long as its
    references are to objects that existed. *)
Theorem successful_load (st : state) (net : network) (resp : response) :
  net GET_lessons = Fulfilled resp -> ok resp = true ->
  let st' := (fetchLessons st net).1 in
  heap st' <$> lessons st' = json resp
  /\ NoDup (lessons st')
  /\ Forall (fun l => ~ allocated st l) (lessons st')
  /\ cart st' = cart st
  /\ (Forall (allocated st) (cart st) -> forall i, entry st' i = entry st i).
Proof.
  intros Hnet Hok st'. subst st'.
  unfold fetchLessons, load. rewrite Hnet, Hok. simpl fst.
  destruct (replace_lessons_spec st (json resp))
    as (Hn & Hls & Hframe & Hread & Hcart & _).
  repeat split; trivial.
  - rewrite Hls. apply NoDup_seq.
  - rewrite Hls. apply Forall_forall. intros l Hl.
    apply elem_of_seq in Hl. unfold allocated. lia.
  - intros Hc i. unfold entry. rewrite Hcart.
    destruct (cart st !! i) as [c|] eqn:E; [|reflexivity]. simpl. f_equal.
    apply Hframe. eapply Forall_forall; [exact Hc|].
    now apply list_elem_of_lookup_2 in E.
Qed.

Lemma successful_load_witness :
  Shop.server [] Shop.fine GET_lessons
  = Fulfilled (Response true [Shop.maths; Shop.english; Shop.physics])
  /\ heap (fetchLessons Shop.two_in_cart (Shop.server [] Shop.fine)).1
       <$> lessons (fetchLessons Shop.two_in_cart (Shop.server [] Shop.fine)).1
     = [Shop.maths; Shop.english; Shop.physics]
  /\ cart (fetchLessons Shop.two_in_cart (Shop.server [] Shop.fine)).1 = [0; 0]%nat.
Proof.
  assert (Hnet : Shop.server [] Shop.fine GET_lessons
                 = Fulfilled (Response true [Shop.maths; Shop.english; Shop.physics]))
    by reflexivity.
  destruct (successful_load Shop.two_in_cart (Shop.server [] Shop.fine) _ Hnet eq_refl)
    as (Hread & _ & _ & Hcart & _).
  split; [exact Hnet|]. split; [exact Hread | exact Hcart].
Defined.

Lemma load_keeps (st : state) (net : network) (r : request) (log : string) :
  let st' := (load st net r log).1 in
  cart st' = cart st /\ checkout st' = checkout st
  /\ showCart st' = showCart st /\ sortBy st' = sortBy st
  /\ sortOrder st' = sortOrder st /\ searchQuery st' = searchQuery st
  /\ orderMessage st' = orderMessage st
  /\ (next st <= next st')%nat
  /\ (forall l, allocated st l -> heap st' l = heap st l).
Proof.
  destruct (load_cases st net r log) as [[_ (resp & _ & H)]|[_ H]];
    simpl; rewrite H.
  - destruct (replace_lessons_spec st (json resp))
      as (Hn & _ & Hframe & _ & H1 & H2 & H3 & H4 & H5 & H6 & H7).
    repeat split; trivial. lia.
  - repeat split; trivial.
Qed.

(** X17.  Whatever the network does, [handleSearch] ends with no order
    message and with the cart, the checkout form, the view and the sort
    settings it started with, and it changes no object that existed. *)
Theorem handleSearch_keeps (st : state) (net : network) :
  let st' := (handleSearch st net).1 in
  orderMessage st' = None
  /\ cart st' = cart st /\ checkout st' = checkout st
  /\ showCart st' = showCart st /\ sortBy st' = sortBy st
  /\ sortOrder st' = sortOrder st
  /\ forall l, allocated st l -> heap st' l = heap st l.
Proof.
  unfold handleSearch, fetchLessons.
  change (searchQuery (set_orderMessage st None)) with (searchQuery st).
  destruct (0 <? String.length (searchQuery st))%nat;
    match goal with |- context [load ?s net ?r ?g] =>
      destruct (load_keeps s net r g)
        as (H1 & H2 & H3 & H4 & H5 & _ & H7 & _ & H9) end;
    simpl in *; repeat split; trivial.
Qed.

(** ** submitOrder: every way it can end *)

Lemma promise_all_inv {A} (ps : list (promise A)) (xs : list A) :
  promise_all ps = Fulfilled xs -> Forall (fun p => exists x, p = Fulfilled x) ps.
Proof.
  unfold promise_all.
  destruct (existsb is_rejected ps) eqn:R; [discriminate|].
  destruct (existsb is_pending ps) eqn:P; [discriminate|]. intros _.
  induction ps as [|p ps IH]; constructor.
  - destruct p; simpl in *; try discriminate. eauto.
  - apply IH; simpl in *.
    + now apply orb_false_iff in R.
    + now apply orb_false_iff in P.
Qed.

Lemma messages_differ (v : variant) :
  submitting <> success v /\ failure v <> success v.
Proof. destruct v; split; discriminate. Qed.

(** The outcomes of [submitOrder]: stalled or failed, with nothing but
    the message changed, or through step 3. *)
Lemma submitOrder_cases (v : variant) (st : state) (net : network) :
  (~ (order_accepted v st net /\ updates_answered v st net)
   /\ ((submitOrder v st net).1 = set_orderMessage st (Some submitting)
       \/ (submitOrder v st net).1 = set_orderMessage st (Some (failure v))))
  \/ (order_accepted v st net /\ updates_answered v st net
      /\ (submitOrder v st net).1
         = match v with
           | app_js => (fetchLessons (finalized app_js st) net).1
           | part_000 => finalized part_000 st
           end).
Proof.
  unfold order_accepted, updates_answered.
  destruct v; cbn [submitOrder orderPayload updateRequests failure];
    [unfold App.submitOrder | unfold Part0.submitOrder].
  all: match goal with |- context [?n (POST_orders ?p)] =>
         destruct (n (POST_orders p)) as [| |resp] eqn:E end.
  all: try (left; split;
            [intros [(x & Hx & _) _]; discriminate
            | first [left; reflexivity | right; reflexivity]]).
  all: destruct (ok resp) eqn:O; simpl negb; cbv iota.
  all: try (left; split;
            [intros [(x & [= <-] & Hx) _]; congruence | right; reflexivity]).
  - change (App.updateRequests (set_orderMessage st _)) with (App.updateRequests st).
    destruct (promise_all _) as [| |xs] eqn:P.
    + left. split; [|left; reflexivity].
      intros [_ H]. apply promise_all_fulfilled in H as [xs Hxs]. congruence.
    + left. split; [|right; reflexivity].
      intros [_ H]. apply promise_all_fulfilled in H as [xs Hxs]. congruence.
    + right. split; [eauto|]. split; [eapply promise_all_inv; eauto|].
      unfold App.finalize.
      change (set_orderMessage _ (Some App.success)) with (finalized app_js st).
      now destruct (fetchLessons _ net).
  - change (Part0.updateRequests (set_orderMessage st _)) with (Part0.updateRequests st).
    destruct (promise_all _) as [| |xs] eqn:P.
    + left. split; [|left; reflexivity].
      intros [_ H]. apply promise_all_fulfilled in H as [xs Hxs]. congruence.
    + left. split; [|right; reflexivity].
      intros [_ H]. apply promise_all_fulfilled in H as [xs Hxs]. congruence.
    + right. split; [eauto|]. split; [eapply promise_all_inv; eauto|].
      reflexivity.
Qed.

Lemma finalized_load (st : state) (net : network) :
  let st' := (fetchLessons (finalized app_js st) net).1 in
  cart st' = [] /\ checkout st' = Checkout "" "" /\ showCart st' = false
  /\ orderMessage st' = Some App.success
  /\ (next st <= next st')%nat
  /\ forall l, allocated st l -> heap st' l = heap st l.
Proof.
  unfold fetchLessons.
  destruct (load_keeps (finalized app_js st) net GET_lessons "Error fetching lessons:")
    as (H1 & H2 & H3 & _ & _ & _ & H7 & H8 & H9).
  simpl in *. repeat split; trivial.
Qed.

(** X18.  [submitOrder] ends with the success message exactly when the
    order is answered with a success status and every update request it
    then sends is answered, with any status.  In all other cases
    (the order rejected, refused or never answered, an update rejected
    or never answered) it shows the submitting or the failure message. *)
Theorem success_message_iff (v : variant) (st : state) (net : network) :
  orderMessage (submitOrder v st net).1 = Some (success v)
  <-> order_accepted v st net /\ updates_answered v st net.
Proof.
  destruct (messages_differ v) as [Hs Hf].
  destruct (submitOrder_cases v st net) as [[Hno [-> | ->]] | (Ha & Hu & ->)].
  - simpl. split; [intros [= H]; contradiction | tauto].
  - simpl. split; [intros [= H]; contradiction | tauto].
  - split; [tauto | intros _]. destruct v; [|reflexivity].
    now destruct (finalized_load st net) as (_ & _ & _ & H & _).
Qed.

(** X19.  An order that does not end with the success message has
    changed nothing but the order message: the state is the one
    [submitOrder] started from with the submitting message (it is still
    waiting) or the failure message.  This covers a rejected update as
    much as a refused order. *)
Theorem no_success_only_message (v : variant) (st : state) (net : network) :
  orderMessage (submitOrder v st net).1 <> Some (success v) ->
  (submitOrder v st net).1 = set_orderMessage st (Some submitting)
  \/ (submitOrder v st net).1 = set_orderMessage st (Some (failure v)).
Proof.
  intros Hno.
  destruct (submitOrder_cases v st net) as [[_ H] | (Ha & Hu & Hst)]; [exact H|].
  exfalso. apply Hno. rewrite Hst. destruct v; [|reflexivity].
  now destruct (finalized_load st net) as (_ & _ & _ & H & _).
Qed.

Lemma no_success_only_message_witness :
  orderMessage (submitOrder part_000 Shop.two_in_cart (Shop.server [] Pending)).1
    <> Some (success part_000)
  /\ (submitOrder part_000 Shop.two_in_cart (Shop.server [] Pending)).1
     = set_orderMessage Shop.two_in_cart (Some submitting).
Proof.
  assert (Hno : orderMessage
                  (submitOrder part_000 Shop.two_in_cart (Shop.server [] Pending)).1
                <> Some (success part_000)) by discriminate.
  split; [exact Hno|].
  destruct (no_success_only_message part_000 Shop.two_in_cart
              (Shop.server [] Pending) Hno) as [H|H]; [exact H|].
  apply (f_equal orderMessage) in H. discriminate H.
Defined.

Lemma submitOrder_no_puts (v : variant) (st : state) (net : network) :
  ~ order_accepted v st net -> puts_in (submitOrder v st net).2 = [].
Proof.
  unfold order_accepted. intros Hno.
  destruct v; cbn [submitOrder orderPayload] in *;
    [unfold App.submitOrder | unfold Part0.submitOrder].
  all: match goal with |- context [?n (POST_orders ?p)] =>
         destruct (n (POST_orders p)) as [| |resp] eqn:E end; try reflexivity.
  all: destruct (ok resp) eqn:O; [exfalso; eauto | reflexivity].
Qed.

Lemma classic_accept (v : variant) (st : state) (net : network) :
  order_accepted v st net \/ ~ order_accepted v st net.
Proof.
  unfold order_accepted.
  destruct (net (POST_orders (orderPayload v st))) as [| |resp] eqn:E.
  - right. intros (x & Hx & _). discriminate.
  - right. intros (x & Hx & _). discriminate.
  - destruct (ok resp) eqn:O; [left; eauto|].
    right. intros (x & [= <-] & Hx). congruence.
Qed.

(** X20.  [submitOrder] never sends an update for a lesson that is not
    in the cart, nor for an id the catalog does not have: the id of
    every PUT it sends is the id of a cart entry and of a lesson of the
    catalog.  Both files, whatever the network does. *)
Theorem puts_only_for_bought_lessons (v : variant) (st : state) (net : network)
        (id : string) (n : Z) :
  (id, n) ∈ puts_in (submitOrder v st net).2 ->
  id ∈ cart_ids st /\ id ∈ catalog_ids st.
Proof.
  intros Hin.
  assert (Hacc : order_accepted v st net).
  { destruct (classic_accept v st net) as [H|H]; [exact H|].
    rewrite submitOrder_no_puts in Hin by assumption. inversion Hin. }
  rewrite (submitOrder_puts v st net Hacc) in Hin.
  destruct v; unfold updateRequests in Hin.
  - rewrite App_updates in Hin.
    apply list_elem_of_omap in Hin as (l & Hl & Hput).
    destruct (Z.ltb_spec 0 (count_id st (_id (heap st l)))) as [Hpos|];
      [|discriminate].
    simpl in Hput. injection Hput as <- _. split.
    + now apply count_id_pos.
    + now apply (list_elem_of_fmap_2 (fun l => _id (heap st l))).
  - rewrite Part0_updates in Hin.
    apply list_elem_of_omap in Hin as (i & Hi & Hput).
    destruct (List.find _ (lessons st)) as [l|] eqn:F; [|discriminate].
    simpl in Hput. injection Hput as <- _. split.
    + now apply new_Set_spec.
    + apply find_elem in F as [Hl Heq]. apply String.eqb_eq in Heq.
      rewrite <- Heq. now apply (list_elem_of_fmap_2 (fun l => _id (heap st l))).
Qed.

Lemma puts_only_for_bought_lessons_witness :
  ("1", 1) ∈ puts_in (submitOrder app_js Shop.two_in_cart (Shop.server [] Shop.fine)).2
  /\ "1" ∈ cart_ids Shop.two_in_cart /\ "1" ∈ catalog_ids Shop.two_in_cart.
Proof.
  assert (Hin : ("1", 1) ∈ puts_in (submitOrder app_js Shop.two_in_cart
                                      (Shop.server [] Shop.fine)).2).
  { change (("1", 1) ∈ [("1", 1)]). left. }
  split; [exact Hin|].
  exact (puts_only_for_bought_lessons app_js Shop.two_in_cart
           (Shop.server [] Shop.fine) "1" 1 Hin).
Defined.

(** X21.  [submitOrder] writes to no lesson: however it ends, every
    object that existed has the fields it had, its space included; and
    part_000 leaves the catalog itself untouched. *)
Theorem submitOrder_writes_no_lesson (v : variant) (st : state) (net : network) :
  (forall l, allocated st l -> heap (submitOrder v st net).1 l = heap st l)
  /\ lessons (submitOrder part_000 st net).1 = lessons st.
Proof.
  split.
  - intros l Hl.
    destruct (submitOrder_cases v st net) as [[_ [-> | ->]] | (_ & _ & ->)];
      try reflexivity.
    destruct v; [|reflexivity].
    destruct (finalized_load st net) as (_ & _ & _ & _ & _ & H). now apply H.
  - destruct (submitOrder_cases part_000 st net) as [[_ [-> | ->]] | (_ & _ & ->)];
      reflexivity.
Qed.

Lemma submitOrder_writes_no_lesson_witness :
  allocated Shop.two_in_cart 0%nat
  /\ heap (submitOrder app_js Shop.two_in_cart (Shop.server [] Shop.fine)).1 0%nat
     = heap Shop.two_in_cart 0%nat.
Proof.
  assert (Hl : allocated Shop.two_in_cart 0%nat) by (vm_compute; lia).
  split; [exact Hl|].
  exact (proj1 (submitOrder_writes_no_lesson app_js Shop.two_in_cart
                  (Shop.server [] Shop.fine)) 0%nat Hl).
Defined.

(** X22.  Once an order has gone through, the page cannot submit it
    again: with the success message come an empty cart, an empty form
    and the closed cart view, so [isCartEnabled] and [isCheckoutEnabled]
    are false. *)
Theorem after_success_checkout_disabled (v : variant) (st : state) (net : network) :
  orderMessage (submitOrder v st net).1 = Some (success v) ->
  let st' := (submitOrder v st net).1 in
  cart st' = [] /\ checkout st' = Checkout "" "" /\ showCart st' = false
  /\ isCartEnabled st' = false /\ isCheckoutEnabled st' = false.
Proof.
  intros Hmsg st'. subst st'.
  destruct (messages_differ v) as [Hs Hf].
  assert (H : cart (submitOrder v st net).1 = []
              /\ checkout (submitOrder v st net).1 = Checkout "" ""
              /\ showCart (submitOrder v st net).1 = false).
  { destruct (submitOrder_cases v st net) as [[_ [H | H]] | (_ & _ & H)];
      rewrite H in Hmsg |- *.
    - injection Hmsg as Hmsg. contradiction.
    - injection Hmsg as Hmsg. contradiction.
    - destruct v; [|repeat split].
      destruct (finalized_load st net) as (H1 & H2 & H3 & _). auto. }
  destruct H as (Hc & Hf' & Hv). repeat split; trivial.
  - unfold isCartEnabled. now rewrite Hc.
  - unfold isCheckoutEnabled, isNameValid. now rewrite Hf'.
Qed.

Lemma after_success_checkout_disabled_witness :
  orderMessage (submitOrder app_js Shop.two_in_cart (Shop.server [] Shop.fine)).1
  = Some (success app_js)
  /\ isCheckoutEnabled (submitOrder app_js Shop.two_in_cart (Shop.server [] Shop.fine)).1
     = false.
Proof.
  assert (H : orderMessage (submitOrder app_js Shop.two_in_cart
                              (Shop.server [] Shop.fine)).1
              = Some (success app_js)) by reflexivity.
  split; [exact H|].
  exact (proj2 (proj2 (proj2 (proj2
    (after_success_checkout_disabled app_js Shop.two_in_cart
       (Shop.server [] Shop.fine) H))))).
Defined.

(** X23.  The checkout button needs a cart and a form: when
    [isCheckoutEnabled] is true the cart is not empty, [isCartEnabled]
    is true, and neither the name nor the phone is empty. *)
Theorem isCheckoutEnabled_needs (st : state) :
  isCheckoutEnabled st = true ->
  cart st <> [] /\ isCartEnabled st = true
  /\ name (checkout st) <> "" /\ phone (checkout st) <> "".
Proof.
  unfold isCheckoutEnabled, isCartEnabled, isNameValid, isPhoneValid,
    name_pattern, phone_pattern.
  rewrite !andb_true_iff, !test_plus_spec.
  intros [[[Hn _] [Hp _]] Hc]. repeat split; trivial.
  intros Hnil. rewrite Hnil in Hc. discriminate.
Qed.

Lemma isCheckoutEnabled_needs_witness :
  isCheckoutEnabled (set_checkout Shop.two_in_cart (Checkout "Jane Doe" "07123456789"))
  = true
  /\ cart (set_checkout Shop.two_in_cart (Checkout "Jane Doe" "07123456789")) <> [].
Proof.
  assert (H : isCheckoutEnabled
                (set_checkout Shop.two_in_cart (Checkout "Jane Doe" "07123456789"))
              = true) by reflexivity.
  split; [exact H|].
  exact (proj1 (isCheckoutEnabled_needs _ H)).
Defined.

(** ** Invariants of the page *)

Lemma alloc_heap (js : list lesson) :
  forall h n l, (alloc h n js).1.1 l = h l \/ (alloc h n js).1.1 l ∈ js.
Proof.
  induction js as [|o js IH]; intros h n l; simpl; [now left|].
  specialize (IH (<[n := o]> h) (S n) l).
  destruct (alloc (<[n := o]> h) (S n) js) as [[h' n'] ls]. simpl in *.
  destruct IH as [IH|IH]; [|right; now right].
  rewrite IH. destruct (decide (n = l)) as [->|Hne].
  - right. rewrite fn_lookup_insert. left.
  - left. now apply fn_lookup_insert_ne.
Qed.

Lemma load_spaces_nonneg (st : state) (net : network) (r : request) (log : string) :
  serves_nonneg net -> spaces_nonneg st -> spaces_nonneg (load st net r log).1.
Proof.
  intros Hnet Hst l.
  destruct (load_cases st net r log) as [[_ (resp & Hr & H)]|[_ H]]; rewrite H;
    [|apply Hst].
  unfold replace_lessons.
  pose proof (alloc_heap (json resp) (heap st) (next st) l) as Hl.
  destruct (alloc (heap st) (next st) (json resp)) as [[h n] ls]. simpl in *.
  destruct Hl as [->|Hl]; [apply Hst|].
  pose proof (Hnet r resp Hr) as Hall. rewrite Forall_forall in Hall.
  exact (Hall _ Hl).
Qed.

Lemma addToCart_spaces_nonneg (st : state) (a : loc) :
  spaces_nonneg st -> spaces_nonneg (addToCart st a).
Proof.
  intros Hst l. unfold addToCart.
  destruct (Z.ltb_spec 0 (space (heap st a))); [|apply Hst].
  simpl. destruct (decide (a = l)) as [->|Hne].
  - rewrite fn_lookup_insert. simpl. lia.
  - rewrite fn_lookup_insert_ne by assumption. apply Hst.
Qed.

Lemma handle_spaces_nonneg (v : variant) (st : state) (e : event) :
  event_nonneg e -> spaces_nonneg st -> spaces_nonneg (handle v st e).
Proof.
  intros He Hst. destruct e; simpl in *.
  - now apply load_spaces_nonneg.
  - unfold handleSearch, fetchLessons.
    destruct (0 <? String.length _)%nat; now apply load_spaces_nonneg.
  - now apply addToCart_spaces_nonneg.
  - intros l. rewrite removeFromCart_heap.
    etransitivity; [apply Hst | apply restore_space].
  - exact Hst.
  - destruct v; exact Hst.
  - intros l.
    destruct (submitOrder_cases v st net) as [[_ [-> | ->]] | (_ & _ & ->)];
      try apply Hst.
    destruct v; [|apply Hst].
    unfold fetchLessons. now apply load_spaces_nonneg.
  - destruct v; exact Hst.
Qed.

(** X24.  No lesson ever has a negative space.  If no object has one to
    begin with and the server never sends one, then after any sequence
    of events (loads, searches, adds, removes with any arguments, form
    input, sorted reads, orders, timers) no object has one. *)
Theorem space_never_negative (v : variant) (es : list event) :
  forall st, spaces_nonneg st -> Forall event_nonneg es ->
    spaces_nonneg (play v st es).
Proof.
  induction es as [|e es IH]; intros st Hst Hes; [exact Hst|].
  apply Forall_cons in Hes as [He Hes]. simpl.
  apply IH; [|exact Hes]. now apply handle_spaces_nonneg.
Qed.

Lemma space_never_negative_witness :
  let net := Shop.server [Shop.english] Shop.fine in
  let es := [Load net; AddLesson 0%nat; AddLesson 2%nat; Search "po" net;
             RemoveEntry 0%nat 5; Submit net] in
  spaces_nonneg (initial "subject" (fun _ => Shop.blank))
  /\ Forall event_nonneg es
  /\ spaces_nonneg (play app_js (initial "subject" (fun _ => Shop.blank)) es).
Proof.
  intros net es.
  assert (H0 : spaces_nonneg (initial "subject" (fun _ => Shop.blank))).
  { intros l. simpl. lia. }
  assert (Hnet : serves_nonneg net).
  { intros r resp Hr. destruct r; injection Hr as <-; simpl;
      repeat constructor; discriminate. }
  assert (Hes : Forall event_nonneg es).
  { repeat constructor; exact Hnet. }
  split; [exact H0|]. split; [exact Hes|].
  exact (space_never_negative app_js es _ H0 Hes).
Defined.









(** ** What the server is told *)

Lemma run_ids (v : variant) (cs : list call) :
  forall st0 st, st ∈ run v st0 cs -> ids_kept st0 st.
Proof.
  induction cs as [|c cs IH]; intros st0 st Hst; [inversion Hst|].
  simpl in Hst. apply elem_of_cons in Hst as [->|Hst].
  - apply step_ids.
  - intros l. rewrite (IH _ _ Hst l). apply step_ids.
Qed.

(** X26.  From a catalog with distinct ids and an empty cart, after any
    calls that agree with the state, every update [submitOrder] sends is
    for a lesson of the catalog and carries, in part_000, the space the
    lesson had at the start less the number of its entries in the cart,
    and in app.js that space less twice that number: the entries are
    subtracted from a space [addToCart] has already lowered. *)
Theorem update_carries (v : variant) (st0 st : state) (cs : list call)
        (net : network) (id : string) (n : Z) :
  NoDup (catalog_ids st0) -> cart st0 = [] -> all_agree v st0 cs ->
  st ∈ run v st0 cs ->
  (id, n) ∈ puts_in (submitOrder v st net).2 ->
  exists l, l ∈ lessons st0 /\ _id (heap st0 l) = id
            /\ n = space (heap st0 l)
                   - match v with app_js => 2 | part_000 => 1 end * count_id st id.
Proof.
  intros Hnd Hempty Hcs Hst Hin.
  destruct (run_invariant v cs st0 Hnd Hcs st Hst) as [Hls Hheld].
  pose proof (run_ids v cs st0 st Hst) as Hids.
  assert (Hsp : forall l, l ∈ lessons st0 ->
            space (heap st l) = space (heap st0 l) - count_id st (_id (heap st l))).
  { intros l Hl. specialize (Hheld l Hl). unfold held in Hheld.
    assert (count_id st0 (_id (heap st0 l)) = 0) as H0.
    { unfold count_id. now rewrite Hempty. }
    lia. }
  assert (Hacc : order_accepted v st net).
  { destruct (classic_accept v st net) as [H|H]; [exact H|].
    rewrite submitOrder_no_puts in Hin by assumption. inversion Hin. }
  rewrite (submitOrder_puts v st net Hacc) in Hin.
  destruct v; unfold updateRequests in Hin.
  - rewrite App_updates in Hin.
    apply list_elem_of_omap in Hin as (l & Hl & Hput).
    destruct (0 <? count_id st (_id (heap st l))); [|discriminate].
    simpl in Hput. injection Hput as <- <-.
    rewrite Hls in Hl. exists l. split; [exact Hl|]. split; [symmetry; apply Hids|].
    rewrite (Hsp l Hl). lia.
  - rewrite Part0_updates in Hin.
    apply list_elem_of_omap in Hin as (i & Hi & Hput).
    destruct (List.find _ (lessons st)) as [l|] eqn:F; [|discriminate].
    simpl in Hput. injection Hput as <- <-.
    apply find_elem in F as [Hl Heq]. apply String.eqb_eq in Heq.
    rewrite Hls in Hl. exists l. split; [exact Hl|].
    split; [now rewrite <- Hids|].
    rewrite (Hsp l Hl), Heq. lia.
Qed.

Lemma update_carries_witness :
  let cs := [Add 0%nat; Add 0%nat] in
  NoDup (catalog_ids Shop.loaded) /\ cart Shop.loaded = []
  /\ all_agree app_js Shop.loaded cs
  /\ Shop.two_in_cart ∈ run app_js Shop.loaded cs
  /\ ("1", 1) ∈ puts_in (submitOrder app_js Shop.two_in_cart
                           (Shop.server [] Shop.fine)).2
  /\ exists l, l ∈ lessons Shop.loaded /\ _id (heap Shop.loaded l) = "1"
               /\ 1 = space (heap Shop.loaded l) - 2 * count_id Shop.two_in_cart "1".
Proof.
  intros cs.
  assert (Hnd : NoDup (catalog_ids Shop.loaded)).
  { apply (bool_decide_unpack _). vm_compute. reflexivity. }
  assert (Hcs : all_agree app_js Shop.loaded cs).
  { cbn [cs all_agree agrees]. repeat split;
      apply (bool_decide_unpack _); vm_compute; reflexivity. }
  assert (Hst : Shop.two_in_cart ∈ run app_js Shop.loaded cs).
  { apply list_elem_of_lookup. exists 1%nat. reflexivity. }
  assert (Hin : ("1", 1) ∈ puts_in (submitOrder app_js Shop.two_in_cart
                                      (Shop.server [] Shop.fine)).2).
  { change (("1", 1) ∈ [("1", 1)]). left. }
  split; [exact Hnd|]. split; [reflexivity|]. split; [exact Hcs|].
  split; [exact Hst|]. split; [exact Hin|].
  exact (update_carries app_js Shop.loaded Shop.two_in_cart cs
           (Shop.server [] Shop.fine) "1" 1 Hnd eq_refl Hcs Hst Hin).
Defined.

Lemma omap_keys_NoDup {A} (f : A -> string) (g : A -> option Z) (l : list A) :
  NoDup (f <$> l) -> NoDup ((omap (fun x => pair (f x) <$> g x) l).*1).
Proof.
  induction l as [|x l IH]; intros Hnd; [constructor|].
  rewrite fmap_cons in Hnd. apply NoDup_cons in Hnd as [Hx Hnd].
  simpl. destruct (g x) as [n|]; simpl; [|now apply IH].
  apply NoDup_cons. split; [|now apply IH].
  intros Hin. apply Hx.
  apply list_elem_of_fmap in Hin as ([i m] & -> & Him).
  apply list_elem_of_omap in Him as (y & Hy & Hg).
  destruct (g y); [|discriminate]. simpl in Hg. injection Hg as <- _.
  simpl. now apply (list_elem_of_fmap_2 f).
Qed.

(** X27.  No lesson is updated twice by one order: the ids of the PUTs
    part_000 sends are distinct, always; those of app.js are distinct
    when the ids of the catalog are. *)
Theorem puts_have_distinct_ids (st : state) (net : network) :
  NoDup (puts_in (Part0.submitOrder st net).2).*1
  /\ (NoDup (catalog_ids st) -> NoDup (puts_in (App.submitOrder st net).2).*1).
Proof.
  change (Part0.submitOrder st net) with (submitOrder part_000 st net).
  change (App.submitOrder st net) with (submitOrder app_js st net).
  split.
  - destruct (classic_accept part_000 st net) as [Hacc|Hno].
    + rewrite (submitOrder_puts part_000 st net Hacc). cbn [updateRequests].
      rewrite Part0_updates. apply (omap_keys_NoDup (fun x => x)).
      rewrite list_fmap_id. apply new_Set_spec.
    + rewrite (submitOrder_no_puts part_000 st net Hno). constructor.
  - intros Hnd. destruct (classic_accept app_js st net) as [Hacc|Hno].
    + rewrite (submitOrder_puts app_js st net Hacc). cbn [updateRequests].
      rewrite App_updates.
      now apply (omap_keys_NoDup (fun l => _id (heap st l))).
    + rewrite (submitOrder_no_puts app_js st net Hno). constructor.
Qed.

Lemma puts_have_distinct_ids_witness :
  NoDup (catalog_ids Shop.aba_in_cart)
  /\ NoDup (puts_in (App.submitOrder Shop.aba_in_cart (Shop.server [] Shop.fine)).2).*1.
Proof.
  assert (Hnd : NoDup (catalog_ids Shop.aba_in_cart)).
  { apply (bool_decide_unpack _). vm_compute. reflexivity. }
  split; [exact Hnd|].
  exact (proj2 (puts_have_distinct_ids Shop.aba_in_cart (Shop.server [] Shop.fine)) Hnd).
Defined.

Lemma handleSearch_keeps_witness :
  allocated Shop.two_in_cart 0%nat
  /\ orderMessage (handleSearch Shop.two_in_cart (Shop.server [Shop.english] Shop.fine)).1
     = None
  /\ cart (handleSearch Shop.two_in_cart (Shop.server [Shop.english] Shop.fine)).1
     = [0; 0]%nat
  /\ heap (handleSearch Shop.two_in_cart (Shop.server [Shop.english] Shop.fine)).1 0%nat
     = heap Shop.two_in_cart 0%nat.
Proof.
  assert (Hl : allocated Shop.two_in_cart 0%nat) by (vm_compute; lia).
  destruct (handleSearch_keeps Shop.two_in_cart (Shop.server [Shop.english] Shop.fine))
    as (Hm & Hc & _ & _ & _ & _ & Hh).
  split; [exact Hl|]. split; [exact Hm|]. split; [exact Hc|]. exact (Hh 0%nat Hl).
Defined.
